(** * MCP gateway: the SSE correlation layer of [mcp-server/index.js]

    A shallow embedding of the Express handlers [GET /mcp/sse] and
    [POST /mcp/message], of the keep-alive timer and of the five document
    tools, followed by the properties of the delivery policy, of the
    registry life cycle and of [search_documents]; then of the REST
    endpoints on the same store, of the upload filter and of [auth.js],
    with the properties they have on their own and together.

    Conventions of the embedding:
    - a JavaScript value that may be [undefined] is an [option];
    - the object [sessions] and the [Map] [mcpConnections] are association
      lists in insertion order (the order [Object.entries] and
      [Map.prototype.keys] enumerate);
    - strings are [string]s of 8-bit characters, which hold ASCII text
      character by character as the JavaScript string does;
      [toLowerCase] folds the ASCII letters, which is what JavaScript
      does on ASCII text, and the statements that depend on the folding
      are made for ASCII text ([Js.ascii]);
    - a text produced by [JSON.stringify] is kept as the value that is
      serialised ([Stringified]), an SSE frame as the envelope it carries;
    - a handler is a function from the server state to the new state, the
      HTTP reply and the list of [res.write] calls it made on SSE streams;
    - [uuidv4()] is an input of the handler that calls it, and so is the
      outcome of [createMCPServer(sessions)], defined in [./mcp-handler]:
      the object it returns is never used by the handlers, the exception
      it may throw is; logging is left out. *)

From Stdlib Require Import String Ascii List ZArith Bool Lia Arith.
From Stdlib Require Import DecimalString.
Import ListNotations.
Open Scope string_scope.

Set Warnings "-register-all".

(* ================================================================== *)
(** ** JavaScript strings *)

Module Js.

Definition lower_ascii (c : ascii) : ascii :=
  let n := nat_of_ascii c in
  if andb (Nat.leb 65 n) (Nat.leb n 90) then ascii_of_nat (n + 32) else c.

(** [s.toLowerCase()] on ASCII text: the letters [A]-[Z] are folded,
    every other character is kept, and the length with it. Outside ASCII
    JavaScript folds more letters, and one of them into two code units;
    those strings are left to the hypothesis [ascii] below. *)
Fixpoint toLowerCase (s : string) : string :=
  match s with
  | EmptyString => EmptyString
  | String c r => String (lower_ascii c) (toLowerCase r)
  end.

(** Every character of [s] is an ASCII character. *)
Definition ascii (s : string) : bool :=
  forallb (fun c => Nat.ltb (nat_of_ascii c) 128) (list_ascii_of_string s).

(** First position at which [needle] occurs in [hay], if any. *)
Fixpoint find (needle hay : string) : option nat :=
  if prefix needle hay then Some 0
  else match hay with
       | EmptyString => None
       | String _ r => option_map S (find needle r)
       end.

(** [hay.indexOf(needle)]: the position, or -1. *)
Definition indexOf (hay needle : string) : Z :=
  match find needle hay with
  | Some i => Z.of_nat i
  | None => (-1)%Z
  end.

(** [hay.includes(needle)] *)
Definition includes (hay needle : string) : bool :=
  match find needle hay with
  | Some _ => true
  | None => false
  end.

Definition clamp (len x : Z) : Z := Z.max 0 (Z.min x len).

(** [s.substring(start, end)]: both arguments are clamped to
    [0 .. s.length] and swapped when out of order. *)
Definition substring (s : string) (start end_ : Z) : string :=
  let len := Z.of_nat (String.length s) in
  let a := clamp len start in
  let b := clamp len end_ in
  let lo := Z.min a b in
  let hi := Z.max a b in
  String.substring (Z.to_nat lo) (Z.to_nat (hi - lo)) s.

(** [`${v}`] and property-key coercion of a possibly undefined string. *)
Definition template (v : option string) : string :=
  match v with
  | Some s => s
  | None => "undefined"
  end.

(** Truthiness of a possibly undefined string. *)
Definition truthy (v : option string) : bool :=
  match v with
  | Some EmptyString => false
  | Some _ => true
  | None => false
  end.

(** [a || b] on possibly undefined strings, with a string default. *)
Definition or_else (v : option string) (d : string) : string :=
  match v with
  | Some EmptyString => d
  | Some s => s
  | None => d
  end.

End Js.

(* ================================================================== *)
(** ** Insertion-ordered maps: a plain object or a [Map] keyed by strings *)

Module Dict.

Section Ops.
Variable V : Type.

Definition t := list (string * V).

Fixpoint get (k : string) (m : t) : option V :=
  match m with
  | [] => None
  | (k', v) :: r => if String.eqb k k' then Some v else get k r
  end.

(** [m[k] = v] / [m.set(k, v)]: an existing key keeps its place. *)
Fixpoint set (k : string) (v : V) (m : t) : t :=
  match m with
  | [] => [(k, v)]
  | (k', v') :: r =>
      if String.eqb k k' then (k, v) :: r else (k', v') :: set k v r
  end.

(** [m.delete(k)] *)
Fixpoint delete (k : string) (m : t) : t :=
  match m with
  | [] => []
  | (k', v') :: r =>
      if String.eqb k k' then delete k r else (k', v') :: delete k r
  end.

Definition keys (m : t) : list string := map fst m.

End Ops.

Arguments get {V} k m.
Arguments set {V} k v m.
Arguments delete {V} k m.
Arguments keys {V} m.

End Dict.

(* ================================================================== *)
(** ** Data model *)

(** JSON values: request ids and the objects handed to [JSON.stringify]. *)
Inductive json : Type :=
| JNull
| JBool (b : bool)
| JNum (n : Z)
| JStr (s : string)
| JArr (items : list json)
| JObj (fields : list (string * json)).

(** A property of an object literal; a property whose value is [undefined]
    is left out by [JSON.stringify]. *)
Definition opt_field (k : string) (v : option string) : list (string * json) :=
  match v with
  | Some s => [(k, JStr s)]
  | None => []
  end.

(** [{ id, title, text }]: [title] and [text] are whatever the uploader
    supplied, possibly nothing. *)
Record Document : Type := {
  doc_id : string;
  doc_title : option string;
  doc_text : option string
}.

(** [{ docs: [], history: [] }] *)
Record Session : Type := {
  docs : list Document;
  history : list (string * string)
}.

(** [params.arguments] of a [tools/call]; every property may be missing. *)
Record ToolArgs : Type := {
  sessionId : option string;
  docId : option string;
  query : option string;
  title : option string;
  text : option string
}.

Record CallParams : Type := {
  name : option string;
  arguments : option ToolArgs
}.

(** The request body [req.body]. *)
Record Message : Type := {
  msg_jsonrpc : option string;
  msg_id : option json;
  msg_method : option string;
  msg_params : option CallParams
}.

Record Request : Type := {
  query_sessionId : option string;
  headers : list (string * string);
  body : Message
}.

(** A text block is either [JSON.stringify(v, null, 2)] or a template
    literal. *)
Inductive Text : Type :=
| Stringified (v : json)
| Literal (s : string).

Record ContentBlock : Type := {
  block_type : string;
  block_text : Text
}.

Record ToolResult : Type := {
  content : list ContentBlock;
  isError : bool
}.

(** Thrown values: [new Error(msg)] of the source, and the [TypeError]s the
    engine raises on a property access through [undefined] (their messages
    are worded as V8 words them; nothing below depends on the wording). *)
Inductive Exn : Type :=
| Error (msg : string)
| TypeError (msg : string).

Definition exn_message (e : Exn) : string :=
  match e with
  | Error m => m
  | TypeError m => m
  end.

Definition reading (prop : string) : Exn :=
  TypeError ("Cannot read properties of undefined (reading '" ++ prop ++ "')").

Record ToolDef : Type := {
  tool_name : string;
  description : string;
  properties : list (string * string);
  required : list string
}.

Record InitializeResult : Type := {
  protocolVersion : string;
  capabilities : list string;
  serverInfo : string * string
}.

Inductive ResultBody : Type :=
| OfInitialize (r : InitializeResult)
| OfToolsList (tools : list ToolDef)
| OfToolCall (r : ToolResult).

Record DebugInfo : Type := {
  requestedId : option string;
  totalConnections : nat;
  availableIds : list string;
  debug_message : option string;
  debug_accept : string;
  allHeaders : list (string * string)
}.

Record RpcError : Type := {
  code : Z;
  message : string;
  debug : option DebugInfo
}.

(** A response carries [result] or [error], never both. *)
Inductive Payload : Type :=
| Result (r : ResultBody)
| Fault (e : RpcError).

Record Response : Type := {
  resp_jsonrpc : string;
  payload : Payload;
  resp_id : option json
}.

(** What is written on an SSE stream. *)
Inductive Frame : Type :=
| EndpointEvent (data : string)
| MessageEvent (data : Response)
| KeepAlive.

(** The body of the reply to a POST (or to a failed GET). *)
Inductive Body : Type :=
| JsonEnvelope (r : Response)
| JsonObject (v : json)
| EventStream (frames : list Frame)
| PlainText (s : string)
| Empty.

Record HttpReply : Type := {
  status : Z;
  reply_body : Body
}.

(** The server side of an SSE response object [res]: [write_fault] is the
    message of the exception [res.write] throws, if it throws (the case
    the [try] blocks around the writes provide for); [accepted] are the
    frames [res.write] took. *)
Record Stream : Type := {
  writableEnded : bool;
  write_fault : option string;
  accepted : list Frame
}.

(** [{ server: mcpServer, res }]: [res] is the handle of the stream; the
    MCP server object is never used by the handlers. *)
Record Connection : Type := {
  res : nat
}.

(** One call of [res.write] on an SSE stream. *)
Record WriteCall : Type := {
  target : nat;
  frame : Frame;
  threw : bool
}.

(** The process-wide state: the stores [sessions] and [mcpConnections],
    the SSE response objects by handle, the keep-alive timers that are
    scheduled (by the handle of the stream they write to), and the
    [close]/[error] listeners (the connection id each one captured). *)
Record State : Type := {
  sessions : Dict.t Session;
  mcpConnections : Dict.t Connection;
  streams : list Stream;
  intervals : list nat;
  listeners : list (nat * string)
}.

(* ================================================================== *)
(** ** The tool invocation engine: the [switch (name)] of [tools/call] *)

(** Code that may throw: [inl e] is the exception [e] raised. *)
Definition Throws (A : Type) : Type := (Exn + A)%type.

Definition bind {A B : Type} (c : Throws A) (k : A -> Throws B) : Throws B :=
  match c with
  | inl e => inl e
  | inr a => k a
  end.

Notation "'let*' x ':=' c 'in' k" := (bind c (fun x => k))
  (at level 10, x pattern, c at level 100, k at level 200).

(** [args.prop]: a [TypeError] when [arguments] itself is missing. *)
Definition arg {A : Type} (prop : string) (get : ToolArgs -> A)
  (args : option ToolArgs) : Throws A :=
  match args with
  | Some a => inr (get a)
  | None => inl (reading prop)
  end.

(** Property names every object literal inherits from [Object.prototype]. *)
Definition object_prototype_keys : list string :=
  [ "constructor"; "__proto__"; "hasOwnProperty"; "isPrototypeOf";
    "propertyIsEnumerable"; "toLocaleString"; "toString"; "valueOf";
    "__defineGetter__"; "__defineSetter__"; "__lookupGetter__";
    "__lookupSetter__" ].

(** The value of [sessions[key]]: a session stored under [key], a value
    inherited from the prototype (truthy, and without a [docs] property),
    or [undefined]. *)
Inductive Property : Type :=
| Own (s : Session)
| Inherited
| Undefined.

Definition sessions_get (key : string) (store : Dict.t Session) : Property :=
  match Dict.get key store with
  | Some s => Own s
  | None =>
      if existsb (String.eqb key) object_prototype_keys then Inherited
      else Undefined
  end.

Definition text_result (v : json) : ToolResult :=
  {| content := [ {| block_type := "text"; block_text := Stringified v |} ];
     isError := false |}.

(** [case 'create_session'] *)
Definition create_session (uuid : string) (store : Dict.t Session)
  : Dict.t Session * Throws ToolResult :=
  let sid := uuid in
  (Dict.set sid {| docs := []; history := [] |} store,
   inr (text_result
          (JObj [ ("sessionId", JStr sid);
                  ("message", JStr "Session created successfully") ]))).

(** [d => ({ id: d.id, title: d.title, textLength: d.text.length })] *)
Definition document_summary (d : Document) : Throws json :=
  match doc_text d with
  | None => inl (reading "length")
  | Some t =>
      inr (JObj ([ ("id", JStr (doc_id d)) ] ++ opt_field "title" (doc_title d)
                 ++ [ ("textLength", JNum (Z.of_nat (String.length t))) ]))
  end.

(** [docs.map(f)] for an [f] that may throw. *)
Fixpoint map_throws {A B : Type} (f : A -> Throws B) (l : list A)
  : Throws (list B) :=
  match l with
  | [] => inr []
  | x :: r =>
      let* y := f x in
      let* ys := map_throws f r in
      inr (y :: ys)
  end.

(** [case 'list_documents'] *)
Definition list_documents (args : option ToolArgs) (store : Dict.t Session)
  : Throws ToolResult :=
  let* sid := arg "sessionId" sessionId args in
  match sessions_get (Js.template sid) store with
  | Undefined => inl (Error ("Session not found: " ++ Js.template sid))
  | Inherited => inl (reading "length")
  | Own session =>
      let* documents := map_throws document_summary (docs session) in
      inr (text_result
             (JObj (opt_field "sessionId" sid
                    ++ [ ("documentCount", JNum (Z.of_nat (length (docs session))));
                         ("documents", JArr documents) ])))
  end.

(** [session.docs.find(d => d.id === args.docId)] *)
Definition find_document (wanted : option string) (l : list Document)
  : option Document :=
  match wanted with
  | Some i => List.find (fun d => String.eqb (doc_id d) i) l
  | None => None
  end.

(** [case 'get_document'] *)
Definition get_document (args : option ToolArgs) (store : Dict.t Session)
  : Throws ToolResult :=
  let* sid := arg "sessionId" sessionId args in
  match sessions_get (Js.template sid) store with
  | Undefined => inl (Error ("Session not found: " ++ Js.template sid))
  | Inherited => inl (reading "length")
  | Own session =>
      let* wanted := arg "docId" docId args in
      match find_document wanted (docs session) with
      | None => inl (Error ("Document not found: " ++ Js.template wanted))
      | Some doc =>
          inr (text_result
                 (JObj ([ ("id", JStr (doc_id doc)) ]
                        ++ opt_field "title" (doc_title doc)
                        ++ opt_field "text" (doc_text doc))))
      end
  end.

(** One element of [results] in [search_documents]. *)
Record SearchHit : Type := {
  hit_sessionId : string;
  hit_docId : string;
  hit_title : option string;
  snippet : string
}.

(** [`...${text.substring(Math.max(0, index - 50),
                          Math.min(text.length, index + 50))}...`] *)
Definition snippet_of (text : string) (index : Z) : string :=
  "..." ++ Js.substring text (Z.max 0 (index - 50))
             (Z.min (Z.of_nat (String.length text)) (index + 50)) ++ "...".

(** The condition of the [if] in the inner loop:
    [doc.text.toLowerCase().includes(q) || doc.title.toLowerCase().includes(q)];
    the title is only looked at when the text does not match. *)
Definition doc_matches (searchLower : string) (doc : Document) : Throws bool :=
  match doc_text doc with
  | None => inl (reading "toLowerCase")
  | Some t =>
      if Js.includes (Js.toLowerCase t) searchLower then inr true
      else match doc_title doc with
           | None => inl (reading "toLowerCase")
           | Some ti => inr (Js.includes (Js.toLowerCase ti) searchLower)
           end
  end.

(** The object pushed for a matching document. *)
Definition hit_of (searchLower sid : string) (doc : Document) : SearchHit :=
  let t := match doc_text doc with Some t => t | None => "" end in
  let index := Js.indexOf (Js.toLowerCase t) searchLower in
  {| hit_sessionId := sid;
     hit_docId := doc_id doc;
     hit_title := doc_title doc;
     snippet := snippet_of t index |}.

(** [for (const doc of session.docs) { ... }], pushing onto [results]. *)
Fixpoint search_docs (searchLower sid : string) (l : list Document)
  (results : list SearchHit) : Throws (list SearchHit) :=
  match l with
  | [] => inr results
  | doc :: r =>
      let* m := doc_matches searchLower doc in
      search_docs searchLower sid r
        (if m then results ++ [hit_of searchLower sid doc] else results)
  end.

(** [for (const [sid, session] of Object.entries(sessionsToSearch))] *)
Fixpoint search_entries (searchLower : string)
  (entries : list (string * Property)) (results : list SearchHit)
  : Throws (list SearchHit) :=
  match entries with
  | [] => inr results
  | (sid, Undefined) :: r => search_entries searchLower r results
  | (sid, Inherited) :: r => inl (TypeError "session.docs is not iterable")
  | (sid, Own session) :: r =>
      let* results' := search_docs searchLower sid (docs session) results in
      search_entries searchLower r results'
  end.

(** [args.sessionId ? { [args.sessionId]: sessions[args.sessionId] } : sessions];
    the entries of [sessions] come in insertion order (its keys are UUIDs,
    never array indices). *)
Definition sessionsToSearch (sid : option string) (store : Dict.t Session)
  : list (string * Property) :=
  if Js.truthy sid
  then [ (Js.template sid, sessions_get (Js.template sid) store) ]
  else map (fun e => (fst e, Own (snd e))) store.

Definition hit_json (h : SearchHit) : json :=
  JObj ([ ("sessionId", JStr (hit_sessionId h)); ("docId", JStr (hit_docId h)) ]
        ++ opt_field "title" (hit_title h)
        ++ [ ("snippet", JStr (snippet h)) ]).

(** The array [results] that [case 'search_documents'] builds. *)
Definition search_results (args : option ToolArgs) (store : Dict.t Session)
  : Throws (list SearchHit) :=
  let* q := arg "query" query args in
  match q with
  | None => inl (reading "toLowerCase")
  | Some q =>
      let searchLower := Js.toLowerCase q in
      let* sid := arg "sessionId" sessionId args in
      search_entries searchLower (sessionsToSearch sid store) []
  end.

(** [case 'search_documents'] *)
Definition search_documents (args : option ToolArgs) (store : Dict.t Session)
  : Throws ToolResult :=
  let* results := search_results args store in
  let* q := arg "query" query args in
  inr (text_result
         (JObj (opt_field "query" q
                ++ [ ("resultCount", JNum (Z.of_nat (length results)));
                     ("results", JArr (map hit_json results)) ]))).

(** [case 'upload_document'] *)
Definition upload_document (uuid : string) (args : option ToolArgs)
  (store : Dict.t Session) : Dict.t Session * Throws ToolResult :=
  match args with
  | None => (store, inl (reading "sessionId"))
  | Some a =>
      match sessions_get (Js.template (sessionId a)) store with
      | Undefined => (store, inl (Error "Session not found"))
      | Inherited => (store, inl (reading "push"))
      | Own session =>
          let docId := uuid in
          let doc := {| doc_id := docId; doc_title := title a;
                        doc_text := text a |} in
          (Dict.set (Js.template (sessionId a))
             {| docs := docs session ++ [doc]; history := history session |}
             store,
           inr (text_result
                  (JObj ([ ("success", JBool true); ("docId", JStr docId) ]
                         ++ opt_field "title" (title a)
                         ++ opt_field "sessionId" (sessionId a)))))
      end
  end.

(** [v === 'literal'] for a possibly undefined string [v]. *)
Definition strict_eq (v : option string) (literal : string) : bool :=
  match v with
  | Some s => String.eqb s literal
  | None => false
  end.

(** [switch (name) { ... default: throw new Error(`Unknown tool: ${name}`) }].
    [uuid] is what [uuidv4()] returns when the tool calls it. *)
Definition run_tool (uuid : string) (name : option string)
  (args : option ToolArgs) (store : Dict.t Session)
  : Dict.t Session * Throws ToolResult :=
  if strict_eq name "create_session" then create_session uuid store
  else if strict_eq name "list_documents" then (store, list_documents args store)
  else if strict_eq name "get_document" then (store, get_document args store)
  else if strict_eq name "search_documents" then (store, search_documents args store)
  else if strict_eq name "upload_document" then upload_document uuid args store
  else (store, inl (Error ("Unknown tool: " ++ Js.template name))).

(* ================================================================== *)
(** ** Streams, timers and the registry *)

Definition initial : State :=
  {| sessions := []; mcpConnections := []; streams := [];
     intervals := []; listeners := [] |}.

Fixpoint update_nth {A : Type} (n : nat) (x : A) (l : list A) : list A :=
  match l, n with
  | [], _ => []
  | _ :: r, O => x :: r
  | y :: r, S n' => y :: update_nth n' x r
  end.

Definition set_streams (l : list Stream) (st : State) : State :=
  {| sessions := sessions st; mcpConnections := mcpConnections st;
     streams := l; intervals := intervals st; listeners := listeners st |}.

Definition set_sessions (s : Dict.t Session) (st : State) : State :=
  {| sessions := s; mcpConnections := mcpConnections st;
     streams := streams st; intervals := intervals st;
     listeners := listeners st |}.

(** [clearInterval(keepAliveInterval)] for the timer of stream [h]. *)
Definition clearInterval (h : nat) (st : State) : State :=
  {| sessions := sessions st; mcpConnections := mcpConnections st;
     streams := streams st;
     intervals := filter (fun h' => negb (Nat.eqb h' h)) (intervals st);
     listeners := listeners st |}.

(** [mcpConnections.delete(connectionId)] *)
Definition registry_delete (id : string) (st : State) : State :=
  {| sessions := sessions st;
     mcpConnections := Dict.delete id (mcpConnections st);
     streams := streams st; intervals := intervals st;
     listeners := listeners st |}.

(** [mcpConnections.get(connectionId)]; a request without the query
    parameter looks up [undefined], which is never a key. *)
Definition registry_get (id : option string) (st : State) : option Connection :=
  match id with
  | Some k => Dict.get k (mcpConnections st)
  | None => None
  end.

(** [res.write(frame)] on the SSE stream [h]: either the exception it
    throws, or the state in which the stream took the frame. *)
Definition res_write (h : nat) (f : Frame) (st : State) : Throws State :=
  match nth_error (streams st) h with
  | None => inl (reading "write")
  | Some s =>
      match write_fault s with
      | Some m => inl (Error m)
      | None =>
          inr (set_streams
                 (update_nth h
                    {| writableEnded := writableEnded s;
                       write_fault := None;
                       accepted := accepted s ++ [f] |}
                    (streams st)) st)
      end
  end.

(** [res.end()], here through [res.status(500).send(...)]. *)
Definition res_end (h : nat) (st : State) : State :=
  match nth_error (streams st) h with
  | None => st
  | Some s =>
      set_streams
        (update_nth h
           {| writableEnded := true; write_fault := write_fault s;
              accepted := accepted s |}
           (streams st)) st
  end.

Definition call (h : nat) (f : Frame) (r : Throws State) : WriteCall :=
  {| target := h; frame := f;
     threw := match r with inl _ => true | inr _ => false end |}.

Definition timer_active (h : nat) (st : State) : bool :=
  existsb (Nat.eqb h) (intervals st).

Definition listener_of (h : nat) (st : State) : option string :=
  option_map snd (List.find (fun e => Nat.eqb (fst e) h) (listeners st)).

(** What can go wrong inside the [try] of the SSE handler. *)
Inductive SetupFault : Type :=
| EndpointWriteThrows (msg : string)
| CreateServerThrows.

(** [app.get('/mcp/sse', ...)]: [uuid] is the connection id [uuidv4()]
    returns; the reply is [None] while the response stays open as a
    stream. *)
Definition get_mcp_sse (uuid : string) (fault : option SetupFault) (st : State)
  : State * option HttpReply * list WriteCall :=
  let h := length (streams st) in
  let connectionId := uuid in
  let fresh :=
    {| writableEnded := false;
       write_fault := match fault with
                      | Some (EndpointWriteThrows m) => Some m
                      | _ => None
                      end;
       accepted := [] |} in
  let st1 :=
    {| sessions := sessions st; mcpConnections := mcpConnections st;
       streams := streams st ++ [fresh];
       intervals := intervals st ++ [h];
       listeners := listeners st |} in
  let endpoint := "/mcp/message?sessionId=" ++ connectionId in
  let w := res_write h (EndpointEvent endpoint) st1 in
  match w with
  | inl _ =>
      (res_end h (clearInterval h st1),
       Some {| status := 500;
               reply_body := PlainText "Failed to establish MCP connection" |},
       [call h (EndpointEvent endpoint) w])
  | inr st2 =>
      match fault with
      | Some CreateServerThrows =>
          (clearInterval h st2, None, [call h (EndpointEvent endpoint) w])
      | _ =>
          ({| sessions := sessions st2;
              mcpConnections :=
                Dict.set connectionId {| res := h |} (mcpConnections st2);
              streams := streams st2; intervals := intervals st2;
              listeners := listeners st2 ++ [(h, connectionId)] |},
           None, [call h (EndpointEvent endpoint) w])
      end
  end.

(** The callback of [setInterval]: it runs only while the timer is
    scheduled, writes without looking at the stream or the registry, and
    on an exception cancels its own timer. *)
Definition keepAliveInterval (h : nat) (st : State) : State * list WriteCall :=
  if timer_active h st then
    let w := res_write h KeepAlive st in
    match w with
    | inr st' => (st', [call h KeepAlive w])
    | inl _ => (clearInterval h st, [call h KeepAlive w])
    end
  else (st, []).

(** [res.on('close', ...)] and [res.on('error', ...)]: the same two
    statements; they exist once the connection has been stored. *)
Definition on_close (h : nat) (st : State) : State :=
  match listener_of h st with
  | Some connectionId => registry_delete connectionId (clearInterval h st)
  | None => st
  end.

Definition on_error (h : nat) (st : State) : State := on_close h st.

(* ================================================================== *)
(** ** The JSON-RPC dispatcher: [app.post('/mcp/message', ...)] *)

(** The catalogue built in the [tools/list] branch. *)
Definition tools : list ToolDef :=
  [ {| tool_name := "create_session";
       description := "Create a new document session";
       properties := []; required := [] |};
    {| tool_name := "list_documents";
       description := "List all documents in a session";
       properties := [("sessionId", "string")]; required := ["sessionId"] |};
    {| tool_name := "get_document";
       description := "Get document content";
       properties := [("sessionId", "string"); ("docId", "string")];
       required := ["sessionId"; "docId"] |};
    {| tool_name := "search_documents";
       description := "Search documents";
       properties := [("query", "string"); ("sessionId", "string")];
       required := ["query"] |};
    {| tool_name := "upload_document";
       description := "Upload document";
       properties := [("sessionId", "string"); ("title", "string");
                      ("text", "string")];
       required := ["sessionId"; "title"; "text"] |} ].

Definition success (r : ResultBody) (id : option json) : Response :=
  {| resp_jsonrpc := "2.0"; payload := Result r; resp_id := id |}.

Definition failure (c : Z) (m : string) (d : option DebugInfo)
  (id : option json) : Response :=
  {| resp_jsonrpc := "2.0";
     payload := Fault {| code := c; message := m; debug := d |};
     resp_id := id |}.

Definition initialize_result : InitializeResult :=
  {| protocolVersion := "2024-11-05";
     capabilities := ["tools"; "resources"];
     serverInfo := ("ai-foundry-mcp-gateway", "1.0.0") |}.

(** [req.headers.accept || ''] *)
Definition acceptHeader (req : Request) : string :=
  Js.or_else (Dict.get "accept" (headers req)) "".

(** [acceptHeader.includes('text/event-stream')] *)
Definition wantsSSE (req : Request) : bool :=
  Js.includes (acceptHeader req) "text/event-stream".

Definition debugInfo (req : Request) (st : State) : DebugInfo :=
  {| requestedId := query_sessionId req;
     totalConnections := length (mcpConnections st);
     availableIds := Dict.keys (mcpConnections st);
     debug_message := msg_method (body req);
     debug_accept := acceptHeader req;
     allHeaders := headers req |}.

Definition reply (code : Z) (b : Body) : HttpReply :=
  {| status := code; reply_body := b |}.

(** What a handler leaves behind: the state, the HTTP reply, and the
    writes it made on SSE streams. *)
Definition Outcome : Type := (State * HttpReply * list WriteCall)%type.

(** An exception that reaches the outer [catch], with the writes made
    before it. *)
Definition Escaped : Type := (Exn * list WriteCall)%type.

(** [connection.res.write(`event: message\ndata: ...`)] followed by the
    [if (wantsSSE) 202 else res.json(response)] of [initialize] and
    [tools/list]. *)
Definition push_and_answer (connection : Connection) (sse : bool)
  (response : Response) (st : State) : Escaped + Outcome :=
  let w := res_write (res connection) (MessageEvent response) st in
  match w with
  | inl e => inl (e, [call (res connection) (MessageEvent response) w])
  | inr st' =>
      inr (st',
           if sse then reply 202 Empty else reply 200 (JsonEnvelope response),
           [call (res connection) (MessageEvent response) w])
  end.

(** [sseConnection.res.writableEnded] *)
Definition res_writableEnded (h : nat) (st : State) : bool :=
  match nth_error (streams st) h with
  | Some s => writableEnded s
  | None => false
  end.

(** The delivery of a tool's result: the original SSE stream first, the
    POST response as the fallback. *)
Definition deliver_tool_result (connectionId : option string)
  (response : Response) (st : State) : Outcome :=
  match registry_get connectionId st with
  | Some sseConnection =>
      if negb (res_writableEnded (res sseConnection) st) then
        let w := res_write (res sseConnection) (MessageEvent response) st in
        match w with
        | inr st' =>
            (st', reply 200 (JsonObject (JObj [("acknowledged", JBool true)])),
             [call (res sseConnection) (MessageEvent response) w])
        | inl _ =>
            (st, reply 200 (JsonEnvelope response),
             [call (res sseConnection) (MessageEvent response) w])
        end
      else (st, reply 200 (JsonEnvelope response), [])
  | None => (st, reply 200 (JsonEnvelope response), [])
  end.

(** The [errorResult] built in the [catch (toolError)] of [tools/call]. *)
Definition tool_error_result (toolError : Exn) : ToolResult :=
  {| content :=
       [ {| block_type := "text";
            block_text :=
              Literal ("Tool execution failed: " ++ exn_message toolError) |} ];
     isError := true |}.

Definition tool_error_response (toolError : Exn) (id : option json) : Response :=
  success (OfToolCall (tool_error_result toolError)) id.

(** The Tool Result a [tools/call] ends with: the tool's own, or the one
    made from the exception it threw. *)
Definition tool_outcome (r : Throws ToolResult) : ToolResult :=
  match r with
  | inr result => result
  | inl toolError => tool_error_result toolError
  end.

Definition tools_call (uuid : string) (req : Request) (st : State)
  : Escaped + Outcome :=
  let message := body req in
  match msg_params message with
  | None =>
      inl (TypeError
             "Cannot destructure property 'name' of 'message.params' as it is undefined.",
           [])
  | Some p =>
      let (store, r) := run_tool uuid (name p) (arguments p) (sessions st) in
      let st1 := set_sessions store st in
      match r with
      | inr result =>
          inr (deliver_tool_result (query_sessionId req)
                 (success (OfToolCall result) (msg_id message)) st1)
      | inl toolError =>
          let errorResponse := tool_error_response toolError (msg_id message) in
          if wantsSSE req
          then inr (st1, reply 200 (EventStream [MessageEvent errorResponse]), [])
          else inr (st1, reply 200 (JsonEnvelope errorResponse), [])
      end
  end.

(** The tail of the [try] block: no branch matched the method. *)
Definition method_not_found (connection : Connection) (req : Request)
  (st : State) : Escaped + Outcome :=
  let message := body req in
  let errorResponse :=
    failure (-32601) ("Method not found: " ++ Js.template (msg_method message))
      None (msg_id message) in
  if wantsSSE req
  then inr (st, reply 200 (EventStream [MessageEvent errorResponse]), [])
  else
    let w := res_write (res connection) (MessageEvent errorResponse) st in
    match w with
    | inl e => inl (e, [call (res connection) (MessageEvent errorResponse) w])
    | inr st' =>
        inr (st', reply 200 (JsonObject (JObj [("received", JBool true)])),
             [call (res connection) (MessageEvent errorResponse) w])
    end.

(** The body of the outer [try]. The [tools/list] branch begins with
    [const tempServer = createMCPServer(sessions)]: [tempServer] is the
    outcome of that call, the server object (never used) or the exception
    it throws, which leaves the branch before anything is written. *)
Definition dispatch (tempServer : Throws unit) (uuid : string)
  (connection : Connection) (req : Request) (st : State)
  : Escaped + Outcome :=
  let message := body req in
  if strict_eq (msg_method message) "initialize" then
    push_and_answer connection (wantsSSE req)
      (success (OfInitialize initialize_result) (msg_id message)) st
  else if strict_eq (msg_method message) "tools/list" then
    match tempServer with
    | inl error => inl (error, [])
    | inr _ =>
        push_and_answer connection (wantsSSE req)
          (success (OfToolsList tools) (msg_id message)) st
    end
  else if strict_eq (msg_method message) "tools/call" then tools_call uuid req st
  else method_not_found connection req st.

(** The whole handler. *)
Definition post_mcp_message (tempServer : Throws unit) (uuid : string)
  (req : Request) (st : State) : Outcome :=
  match registry_get (query_sessionId req) st with
  | None =>
      (st,
       reply 404
         (JsonEnvelope
            (failure (-32001) "Connection not found"
               (Some (debugInfo req st)) (msg_id (body req)))),
       [])
  | Some connection =>
      match dispatch tempServer uuid connection req st with
      | inr out => out
      | inl (error, writes) =>
          (st,
           reply 500
             (JsonEnvelope
                (failure (-32603) (exn_message error) None (msg_id (body req)))),
           writes)
      end
  end.

(* ================================================================== *)
(** ** The server as a transition system *)

(** What happens to the process: a request, a timer firing, a
    notification of the platform ([close] or [error] on a stream), or the
    [res.write] of a stream starting to throw. The last one is there so
    that what is proved of every run also covers the [catch] branches
    around the writes. *)
Inductive Event : Type :=
| SseOpen (uuid : string) (fault : option SetupFault)
| Post (tempServer : Throws unit) (uuid : string) (req : Request)
| Tick (h : nat)
| Close (h : nat)
| StreamError (h : nat)
| TransportFails (h : nat) (msg : string).

Definition transport_fails (h : nat) (msg : string) (st : State) : State :=
  match nth_error (streams st) h with
  | None => st
  | Some s =>
      set_streams
        (update_nth h
           {| writableEnded := writableEnded s; write_fault := Some msg;
              accepted := accepted s |}
           (streams st)) st
  end.

Definition step (e : Event) (st : State) : State * list WriteCall :=
  match e with
  | SseOpen uuid fault =>
      let '(st', _, writes) := get_mcp_sse uuid fault st in (st', writes)
  | Post tempServer uuid req =>
      let '(st', _, writes) := post_mcp_message tempServer uuid req st in
      (st', writes)
  | Tick h => keepAliveInterval h st
  | Close h => (on_close h st, [])
  | StreamError h => (on_error h st, [])
  | TransportFails h msg => (transport_fails h msg st, [])
  end.




(* ================================================================== *)
(** ** Readings of the specification used to compare it with the code *)

(** Names for the three JSON-RPC error codes that occur in the handlers. *)
Definition CONNECTION_NOT_FOUND : Z := (-32001)%Z.
Definition METHOD_NOT_FOUND : Z := (-32601)%Z.
Definition INTERNAL_FAULT : Z := (-32603)%Z.

(** [needle] occurs somewhere in [hay]. *)
Definition mentions (hay needle : string) : Prop :=
  exists before after, hay = before ++ needle ++ after.

(** The envelope a client gets from a reply, whichever way it is framed. *)
Definition delivered (r : HttpReply) : option Response :=
  match reply_body r with
  | JsonEnvelope e => Some e
  | EventStream [MessageEvent e] => Some e
  | _ => None
  end.

(** The frames the SSE stream [h] has taken so far. *)
Definition frames_of (h : nat) (st : State) : list Frame :=
  match nth_error (streams st) h with
  | Some s => accepted s
  | None => []
  end.

(** The stream [h] can be written to: it exists, has not been ended, and
    its transport takes writes. *)
Definition writable (h : nat) (st : State) : bool :=
  match nth_error (streams st) h with
  | Some s =>
      negb (writableEnded s)
      && match write_fault s with None => true | Some _ => false end
  | None => false
  end.

(** The lightweight confirmation of a [tools/call] POST. *)
Definition acknowledgment : Body :=
  JsonObject (JObj [("acknowledged", JBool true)]).

(** Delivery rule 1 as the specification words it: with a registered and
    writable stream the response goes out as a frame on that stream and
    the POST gets the acknowledgment, which is not the JSON-RPC payload;
    otherwise the POST gets the full response and no stream changes. *)
Definition sse_first (id : option string) (response : Response)
  (before : State) (out : Outcome) : Prop :=
  let '(after, r, _) := out in
  match registry_get id before with
  | Some c =>
      if writable (res c) before then
        frames_of (res c) after
        = (frames_of (res c) before ++ [MessageEvent response])%list
        /\ r = reply 200 acknowledgment
        /\ delivered r = None
      else r = reply 200 (JsonEnvelope response)
           /\ streams after = streams before
  | None => r = reply 200 (JsonEnvelope response)
            /\ streams after = streams before
  end.

(** Delivery rule 2 as the specification words it: the response is
    pushed as a frame onto the connection's stream [h] whatever the
    client accepts, and the POST is answered with the full response when
    it did not declare streaming acceptance, with an empty 202
    otherwise. *)
Definition delivery_rule_2 (h : nat) (sse : bool) (response : Response)
  (before : State) (out : Outcome) : Prop :=
  let '(after, r, _) := out in
  frames_of h after = (frames_of h before ++ [MessageEvent response])%list
  /\ r = (if sse then reply 202 Empty else reply 200 (JsonEnvelope response)).

(** The shape the specification requires of a request envelope: the
    version tag is the fixed string and a method is named. *)
Definition well_formed_envelope (m : Message) : bool :=
  strict_eq (msg_jsonrpc m) "2.0"
  && match msg_method m with Some _ => true | None => false end.

(** The rejection the specification promises for a malformed envelope: a
    JSON-RPC error whose code is a fourth one, with the id echoed, or
    [null] when the request has none. *)
Definition rejected_as_malformed (req : Request) (r : HttpReply) : Prop :=
  exists resp e,
    delivered r = Some resp /\ payload resp = Fault e
    /\ code e <> CONNECTION_NOT_FOUND /\ code e <> METHOD_NOT_FOUND
    /\ code e <> INTERNAL_FAULT
    /\ resp_id resp = Some (match msg_id (body req) with
                            | Some i => i
                            | None => JNull
                            end).

(** The same request with another [jsonrpc] member. *)
Definition with_jsonrpc (j : option string) (req : Request) : Request :=
  {| query_sessionId := query_sessionId req; headers := headers req;
     body := {| msg_jsonrpc := j; msg_id := msg_id (body req);
                msg_method := msg_method (body req);
                msg_params := msg_params (body req) |} |}.







(** A stored document carries both a title and a text. *)
Definition complete (doc : Document) : Prop :=
  doc_text doc <> None /\ doc_title doc <> None.

(** The title and the text of a stored document are ASCII text. *)
Definition ascii_document (doc : Document) : Prop :=
  (forall t, doc_text doc = Some t -> Js.ascii t = true)
  /\ (forall ti, doc_title doc = Some ti -> Js.ascii ti = true).

(** The query occurs in the text or in the title, case-insensitively. *)
Definition matching (searchLower : string) (doc : Document) : bool :=
  match doc_text doc with
  | Some t => Js.includes (Js.toLowerCase t) searchLower
  | None => false
  end
  || match doc_title doc with
     | Some ti => Js.includes (Js.toLowerCase ti) searchLower
     | None => false
     end.

(** The sessions a search looks at: the one stored under the given id, or
    all of them when no id is given. *)
Definition searched_sessions (sid : option string) (store : Dict.t Session)
  : list (string * Session) :=
  if Js.truthy sid then
    match Dict.get (Js.template sid) store with
    | Some s => [(Js.template sid, s)]
    | None => []
    end
  else store.

(** One hit per matching document, in the order of discovery. *)
Definition expected_hits (searchLower : string)
  (searched : list (string * Session)) : list SearchHit :=
  flat_map
    (fun e => map (hit_of searchLower (fst e))
                (filter (matching searchLower) (docs (snd e))))
    searched.

(** The specification's snippet: the characters of [t] from 50 before the
    position [i] to 50 after it, cut at both ends of [t], between
    ellipses. *)
Definition window (t : string) (i : nat) : string :=
  "..." ++ String.substring (i - 50) (Nat.min (String.length t) (i + 50) - (i - 50)) t
  ++ "...".

(** The snippet is the window around the first match of the query in the
    document's text. *)
Definition around_first_match (searchLower : string) (doc : Document)
  (snip : string) : Prop :=
  exists t i,
    doc_text doc = Some t
    /\ Js.find searchLower (Js.toLowerCase t) = Some i
    /\ snip = window t i.

(** The result of a search that found nothing. *)
Definition nothing_found (q : string) : ToolResult :=
  text_result
    (JObj [ ("query", JStr q); ("resultCount", JNum 0); ("results", JArr []) ]).

(** "A search in an unknown session finds nothing", as stated: for a
    session id under which no session is stored. *)
Definition unknown_session_finds_nothing (store : Dict.t Session)
  (a : ToolArgs) : Prop :=
  forall q sid,
    query a = Some q -> sessionId a = Some sid ->
    Dict.get sid store = None ->
    tool_outcome (search_documents (Some a) store) = nothing_found q.

(** The name is one of the catalogue. *)
Definition known_tool (n : string) : bool :=
  existsb (String.eqb n) (map tool_name tools).

(** The ways a tool execution fails that the specification names: an
    unknown tool name, no session stored under the given id, no document
    with the given id in the session. *)
Inductive tool_failure (store : Dict.t Session)
  : option string -> option ToolArgs -> Prop :=
| unknown_tool_name (n : string) (args : option ToolArgs) :
    known_tool n = false -> tool_failure store (Some n) args
| missing_session (n : string) (a : ToolArgs) :
    In n ["list_documents"; "get_document"; "upload_document"] ->
    Dict.get (Js.template (sessionId a)) store = None ->
    tool_failure store (Some n) (Some a)
| missing_document (a : ToolArgs) (session : Session) :
    Dict.get (Js.template (sessionId a)) store = Some session ->
    find_document (docId a) (docs session) = None ->
    tool_failure store (Some "get_document") (Some a).

(* ================================================================== *)
(** ** Sample inputs *)

Module Sample.

Definition no_args : ToolArgs :=
  {| sessionId := None; docId := None; query := None; title := None;
     text := None |}.

(** One client has opened the SSE stream and was given the id [c-1]. *)
Definition connected : State :=
  fst (fst (get_mcp_sse "c-1" None initial)).

Definition request (to : option string) (accept : list (string * string))
  (m : option string) (p : option CallParams) : Request :=
  {| query_sessionId := to; headers := accept;
     body := {| msg_jsonrpc := Some "2.0"; msg_id := Some (JNum 1);
                msg_method := m; msg_params := p |} |}.

Definition json_client : list (string * string) :=
  [("accept", "application/json")].

Definition sse_client : list (string * string) :=
  [("accept", "application/json, text/event-stream")].

(** The store after [create_session] and one [upload_document]. *)
Definition one_document (ti t : string) : Dict.t Session :=
  fst (upload_document "d-1"
         (Some {| sessionId := Some "s-1"; docId := None; query := None;
                  title := Some ti; text := Some t |})
         (fst (create_session "s-1" []))).

Definition search_for (q : string) (sid : option string) : ToolArgs :=
  {| sessionId := sid; docId := None; query := Some q; title := None;
     text := None |}.

Definition call_tool (n : string) (a : ToolArgs) : option CallParams :=
  Some {| name := Some n; arguments := Some a |}.

End Sample.

(* ================================================================== *)
(** ** The upload filter: [fileFilter] of the multer configuration *)

Module JsExt.

(** Last position at which [needle] occurs in [hay], if any. *)
Fixpoint find_last (needle hay : string) : option nat :=
  match hay with
  | EmptyString => if prefix needle hay then Some 0 else None
  | String _ r =>
      match find_last needle r with
      | Some i => Some (S i)
      | None => if prefix needle hay then Some 0 else None
      end
  end.

(** [hay.lastIndexOf(needle)]: the position, or -1. *)
Definition lastIndexOf (hay needle : string) : Z :=
  match find_last needle hay with
  | Some i => Z.of_nat i
  | None => (-1)%Z
  end.

(** [s.slice(start)]: a negative [start] counts from the end. *)
Definition slice (s : string) (start : Z) : string :=
  let len := Z.of_nat (String.length s) in
  let from := if (start <? 0)%Z then Z.max (len + start) 0
              else Z.min start len in
  String.substring (Z.to_nat from) (Z.to_nat (len - from)) s.

(** [{ ...base, ...extra }]: a later property replaces the value of an
    earlier one of the same name, in the earlier one's place. *)
Definition spread (base extra : list (string * string))
  : list (string * string) :=
  fold_left (fun m kv => Dict.set (fst kv) (snd kv) m) extra base.

End JsExt.

Definition allowedTypes : list string := [".txt"; ".csv"].

(** [fileFilter: (req, file, cb) => ...] on [file.originalname]:
    [cb(null, true)] is [inr true], [cb(new Error(...), false)] the
    error. *)
Definition fileFilter (originalname : string) : Throws bool :=
  let fileExtension :=
    JsExt.slice (Js.toLowerCase originalname)
      (JsExt.lastIndexOf originalname ".") in
  if existsb (String.eqb fileExtension) allowedTypes then inr true
  else inl (Error "Only .txt and .csv files are allowed").

(* ================================================================== *)
(** ** The REST endpoints on [sessions] *)

(** [app.post('/session', ...)] *)
Definition post_session (uuid : string) (st : State) : State * HttpReply :=
  let sid := uuid in
  (set_sessions (Dict.set sid {| docs := []; history := [] |} (sessions st)) st,
   reply 200 (JsonObject (JObj [("sessionId", JStr sid)]))).

(** The body of an upload: [{ text, title }]. *)
Record UploadBody : Type := {
  upload_text : option string;
  upload_title : option string
}.

(** [sessions[sid].docs.push(doc)] once [sessions[sid]] is known to be
    truthy. *)
Definition push_document (sid : string) (doc : Document) (st : State)
  : Throws State :=
  match sessions_get sid (sessions st) with
  | Own session =>
      inr (set_sessions
             (Dict.set sid
                {| docs := docs session ++ [doc]; history := history session |}
                (sessions st)) st)
  | Inherited => inl (reading "push")
  | Undefined => inl (reading "docs")
  end.

(** [app.post('/session/:sid/upload', ...)]; an exception leaves the
    handler. *)
Definition post_upload (uuid sid : string) (b : UploadBody) (st : State)
  : Throws (State * HttpReply) :=
  match sessions_get sid (sessions st) with
  | Undefined => inr (st, reply 404 (PlainText "Session not found"))
  | _ =>
      let docId := uuid in
      let* st' := push_document sid
                    {| doc_id := docId; doc_title := upload_title b;
                       doc_text := upload_text b |} st in
      inr (st', reply 200 (JsonObject (JObj [("docId", JStr docId)])))
  end.

(** [req.file] as multer hands it over: the name the client gave and the
    content, [buffer.toString('utf-8')]. *)
Record UploadedFile : Type := {
  originalname : string;
  buffer : string
}.

(** [upload.single('file')], the middleware in front of the handler, for
    a request with at most the one file part, named [file]: multer runs
    [fileFilter] on the part, if there is one, and enforces
    [limits.fileSize] while it reads it ([oversized]: the part is larger
    than the limit). When either one refuses, multer passes the error on
    and the handler does not run; otherwise [req.file] is the part, or
    [undefined] without one. *)
Definition upload_single (part : option UploadedFile) (oversized : bool)
  : Throws (option UploadedFile) :=
  match part with
  | None => inr None
  | Some f =>
      let* accepted := fileFilter (originalname f) in
      if oversized then inl (Error "File too large") else inr (Some f)
  end.

(** The handler of [app.post('/session/:sid/upload-file', ...)]: [file]
    is [req.file], [title] is [req.body.title]. *)
Definition upload_file_handler (uuid sid : string)
  (file : option UploadedFile) (title : option string) (st : State)
  : State * HttpReply :=
  match sessions_get sid (sessions st) with
  | Undefined => (st, reply 404 (PlainText "Session not found"))
  | _ =>
      match file with
      | None =>
          (st, reply 400 (JsonObject (JObj [("error", JStr "No file uploaded")])))
      | Some f =>
          let text := buffer f in
          let title := Js.or_else title (originalname f) in
          let docId := uuid in
          match push_document sid
                  {| doc_id := docId; doc_title := Some title;
                     doc_text := Some text |} st with
          | inr st' =>
              (st', reply 200
                      (JsonObject
                         (JObj [ ("docId", JStr docId);
                                 ("filename", JStr (originalname f)) ])))
          | inl _ =>
              (st, reply 500
                     (JsonObject
                        (JObj [("error", JStr "Failed to process file")])))
          end
      end
  end.

(** [app.post('/session/:sid/upload-file', upload.single('file'), ...)]:
    the middleware, then the handler; an error of the middleware leaves
    the route, to be answered by the error handling of Express. *)
Definition post_upload_file (uuid sid : string) (part : option UploadedFile)
  (oversized : bool) (title : option string) (st : State)
  : Throws (State * HttpReply) :=
  let* file := upload_single part oversized in
  inr (upload_file_handler uuid sid file title st).

(* ================================================================== *)
(** ** Authentication: [auth.js] *)

(** What [credential.getToken(...)] resolves to. *)
Record AccessToken : Type := {
  token : option string
}.

(** [getAuthHeaders()]: [apiKey] is [process.env.FOUNDRY_API_KEY];
    [getToken] is the outcome of creating the credential and awaiting its
    token (an exception, [null], or a token object), looked at only
    when there is no key. *)
Definition getAuthHeaders (apiKey : option string)
  (getToken : Throws (option AccessToken)) : Throws (list (string * string)) :=
  if Js.truthy apiKey then inr [("api-key", Js.template apiKey)]
  else
    let attempt :=
      let* tok := getToken in
      match tok with
      | Some t =>
          if Js.truthy (token t)
          then inr [("Authorization", "Bearer " ++ Js.template (token t))]
          else inl (Error "Failed to obtain token from credential provider")
      | None => inl (Error "Failed to obtain token from credential provider")
      end in
    match attempt with
    | inr hs => inr hs
    | inl error => inl (Error ("Authentication failed: " ++ exn_message error))
    end.

(** The [options] of a request: [headers] is empty when absent. *)
Record FetchOptions : Type := {
  opt_method : option string;
  opt_body : option string;
  opt_headers : list (string * string)
}.

(** [errorData], the parsed body of a failed response when it is not
    [null]: [error_message] is [errorData.error?.message] as the template
    literal prints it, [None] when it is [undefined]. *)
Record ErrorData : Type := {
  error_message : option string
}.

(** The part of a fetch [Response] the code reads: [ok], [status] and
    what [json()] resolves to: an exception when the body is not JSON,
    [None] when the body is the JSON [null], the value otherwise. *)
Record FetchResponse : Type := {
  ok : bool;
  http_status : nat;
  json_body : Throws (option ErrorData)
}.

(** [`${n}`] for a non-negative integer. *)
Definition decimal (n : nat) : string :=
  NilZero.string_of_uint (Nat.to_uint n).

(** [makeAuthenticatedRequest(endpoint, options)]; [fetch] is the global
    of that name. *)
Definition makeAuthenticatedRequest (apiKey : option string)
  (getToken : Throws (option AccessToken))
  (fetch : string -> FetchOptions -> Throws FetchResponse)
  (endpoint : string) (options : FetchOptions) : Throws FetchResponse :=
  let* authHeaders := getAuthHeaders apiKey getToken in
  let headers :=
    JsExt.spread
      (JsExt.spread [("Content-Type", "application/json")] authHeaders)
      (opt_headers options) in
  let* response :=
    fetch endpoint
      {| opt_method := opt_method options; opt_body := opt_body options;
         opt_headers := headers |} in
  if ok response then inr response
  else
    let errorData :=
      match json_body response with
      | inr d => d
      | inl _ => Some {| error_message := None |}
      end in
    match errorData with
    | None => inl (TypeError "Cannot read properties of null (reading 'error')")
    | Some d =>
        inl (Error ("HTTP " ++ decimal (http_status response) ++ ": "
                    ++ Js.or_else (error_message d) "Unknown error"))
    end.

(* ================================================================== *)
(** ** The query endpoint: [app.post('/session/:sid/query', ...)] *)

(** The body of a query; [query] is taken to be a string, as the history
    stores it. *)
Record QueryBody : Type := {
  q_docId : option string;
  q_query : string;
  q_mode : option string
}.

(** The three places of the model's answer the handler looks at:
    [data?.choices?.[0]?.message?.content], [data?.choices?.[0]?.content]
    and [data?.error?.message]. *)
Record ModelData : Type := {
  message_content : option string;
  choice_content : option string;
  data_error_message : option string
}.

Definition nl : string := String (ascii_of_nat 10) EmptyString.

(** [mode === 'qa' ? `Document:...` : `Summarize...`] *)
Definition prompt_of (mode : option string) (doc : Document) (q : string)
  : string :=
  if strict_eq mode "qa"
  then "Document:" ++ nl ++ Js.template (doc_text doc) ++ nl ++ nl
       ++ "Question: " ++ q ++ nl ++ "Answer:"
  else "Summarize the following document:" ++ nl ++ nl
       ++ Js.template (doc_text doc) ++ nl ++ nl ++ "Summary:".

(** Where the synchronous head of the handler ends: with a reply, or at
    the first [await] with the prompt built. *)
Inductive Prepared : Type :=
| Refused (r : HttpReply)
| Ask (prompt : string).

Definition query_prepare (sid : string) (b : QueryBody) (st : State)
  : Throws Prepared :=
  match sessions_get sid (sessions st) with
  | Undefined => inr (Refused (reply 404 (PlainText "Session not found")))
  | Inherited => inl (reading "find")
  | Own session =>
      match find_document (q_docId b) (docs session) with
      | None => inr (Refused (reply 404 (PlainText "Document not found")))
      | Some doc => inr (Ask (prompt_of (q_mode b) doc (q_query b)))
      end
  end.

(** The JSON sent to the model. *)
Definition completion_request (prompt : string) : json :=
  JObj [ ("messages",
          JArr [ JObj [("role", JStr "user"); ("content", JStr prompt)] ]);
         ("max_tokens", JNum 300) ].

(** The awaited part: [getAuthHeaders()], then [fetch] and
    [response.json()], which [ask] stands for; [endpoint] is
    [process.env.FOUNDRY_ENDPOINT]. *)
Definition query_call (apiKey : option string)
  (getToken : Throws (option AccessToken)) (endpoint : option string)
  (ask : option string -> list (string * string) -> json -> Throws ModelData)
  (prompt : string) : Throws ModelData :=
  let* authHeaders := getAuthHeaders apiKey getToken in
  let headers :=
    JsExt.spread [("Content-Type", "application/json")] authHeaders in
  ask endpoint headers (completion_request prompt).

(** [a || b || c || "No response from model"] *)
Definition assistantMessage (data : ModelData) : string :=
  Js.or_else (message_content data)
    (Js.or_else (choice_content data)
       (Js.or_else (data_error_message data) "No response from model")).

(** The tail of the handler, run on the state found when the awaited part
    is over: [outcome] is the data received or the exception caught. *)
Definition query_complete (sid : string) (b : QueryBody)
  (outcome : Throws ModelData) (st : State) : State * HttpReply :=
  let caught (err : Exn) :=
    (st, reply 500 (JsonObject (JObj [("error", JStr (exn_message err))]))) in
  match outcome with
  | inl err => caught err
  | inr data =>
      let m := assistantMessage data in
      match sessions_get sid (sessions st) with
      | Own session =>
          (set_sessions
             (Dict.set sid
                {| docs := docs session;
                   history := history session ++ [(q_query b, m)] |}
                (sessions st)) st,
           reply 200 (JsonObject (JObj [("answer", JStr m)])))
      | Inherited => caught (reading "push")
      | Undefined => caught (reading "history")
      end
  end.

(* ================================================================== *)
(** ** Notions used to state the further properties *)

(** [s] ends with [suffix]. *)
Definition ends_with (s suffix : string) : Prop :=
  exists before, s = before ++ suffix.

(** The part of [s] from its last dot on, if it has a dot. *)
Fixpoint last_dot_suffix (s : string) : option string :=
  match s with
  | EmptyString => None
  | String c r =>
      match last_dot_suffix r with
      | Some e => Some e
      | None => if ascii_dec "." c then Some s else None
      end
  end.

(** The arguments of a tool call about one session. *)
Definition args_for (sid : option string) (doc : option string)
  (ti t : option string) : ToolArgs :=
  {| sessionId := sid; docId := doc; query := None; title := ti; text := t |}.

(** Between [st] and [st'] the stream [h] only took more frames: what
    it held is still there, in the same order, at the front. *)
Definition grows (h : nat) (st st' : State) : Prop :=
  exists suffix, frames_of h st' = (frames_of h st ++ suffix)%list.

(* ================================================================== *)
(** * Properties *)

(** ** Strings *)

Lemma toLowerCase_length (s : string) :
  String.length (Js.toLowerCase s) = String.length s.
Proof. induction s as [|c r IH]; simpl; congruence. Qed.

Lemma find_unfold (needle hay : string) :
  Js.find needle hay =
  if prefix needle hay then Some 0
  else match hay with
       | EmptyString => None
       | String _ r => option_map S (Js.find needle r)
       end.
Proof. destruct hay; reflexivity. Qed.

Lemma find_occurs (needle hay : string) (i : nat) :
  Js.find needle hay = Some i ->
  String.substring i (String.length needle) hay = needle.
Proof.
  revert i. induction hay as [|c r IH]; intros i; rewrite find_unfold.
  - destruct (prefix needle "") eqn:P; [|discriminate].
    intros [= <-]. now apply prefix_correct.
  - destruct (prefix needle (String c r)) eqn:P.
    + intros [= <-]. now apply prefix_correct.
    + destruct (Js.find needle r) as [j|]; [|discriminate].
      intros [= <-]. cbn [String.substring]. now apply IH.
Qed.

Lemma find_first (needle hay : string) (i j : nat) :
  Js.find needle hay = Some i -> j < i ->
  String.substring j (String.length needle) hay <> needle.
Proof.
  revert i j. induction hay as [|c r IH]; intros i j; rewrite find_unfold.
  - destruct (prefix needle ""); [intros [= <-]; lia | discriminate].
  - destruct (prefix needle (String c r)) eqn:P.
    + intros [= <-]. lia.
    + destruct (Js.find needle r) as [k|] eqn:F; [|discriminate].
      intros [= <-] Hj. destruct j as [|j].
      * intros E. apply prefix_correct in E. congruence.
      * cbn [String.substring]. apply (IH k); [reflexivity | lia].
Qed.

Lemma find_within (needle hay : string) (i : nat) :
  Js.find needle hay = Some i -> i <= String.length hay.
Proof.
  revert i. induction hay as [|c r IH]; intros i; rewrite find_unfold.
  - destruct (prefix needle ""); [intros [= <-]; simpl; lia | discriminate].
  - destruct (prefix needle (String c r)).
    + intros [= <-]. lia.
    + destruct (Js.find needle r) as [k|]; [|discriminate].
      intros [= <-]. specialize (IH k eq_refl). simpl. lia.
Qed.

Lemma substring_in_range (s : string) (lo hi : Z) :
  (0 <= lo <= hi)%Z -> (hi <= Z.of_nat (String.length s))%Z ->
  Js.substring s lo hi = String.substring (Z.to_nat lo) (Z.to_nat (hi - lo)) s.
Proof.
  intros H1 H2. unfold Js.substring, Js.clamp.
  replace (Z.max 0 (Z.min lo (Z.of_nat (String.length s)))) with lo by lia.
  replace (Z.max 0 (Z.min hi (Z.of_nat (String.length s)))) with hi by lia.
  replace (Z.min lo hi) with lo by lia.
  replace (Z.max lo hi) with hi by lia.
  reflexivity.
Qed.

Lemma mentions_append (a b : string) : mentions (a ++ b) b.
Proof.
  exists a, "". f_equal.
  induction b as [|c r IH]; simpl; congruence.
Qed.

(** ** The dispatcher, path by path *)

Ltac break_step :=
  match goal with
  | |- context [match ?x with _ => _ end] => destruct x eqn:?
  | H : context [match ?x with _ => _ end] |- _ => destruct x eqn:?
  end.

Ltac tidy :=
  repeat match goal with
  | H : inr _ = inr _ |- _ => injection H; clear H; intros; subst
  | H : inl _ = inl _ |- _ => injection H; clear H; intros; subst
  | H : inr _ = inl _ |- _ => discriminate H
  | H : inl _ = inr _ |- _ => discriminate H
  | H : (_, _) = (_, _) |- _ => injection H; clear H; intros; subst
  | H : Some _ = Some _ |- _ => injection H; clear H; intros; subst
  | H : Some _ = None |- _ => discriminate H
  | H : None = Some _ |- _ => discriminate H
  end.

Ltac unfold_handler :=
  unfold post_mcp_message, dispatch, push_and_answer, tools_call,
    method_not_found, deliver_tool_result in *.

Ltac by_paths := unfold_handler; repeat break_step; tidy; cbn in *; tidy.

(** Every envelope a reply carries echoes the request's id as it came. *)
Lemma reply_echoes_id (tempServer : Throws unit)
  (uuid : string) (req : Request) (st : State)
  (resp : Response) :
  delivered (snd (fst (post_mcp_message tempServer uuid req st))) = Some resp ->
  resp_id resp = msg_id (body req).
Proof.
  intros E. by_paths; reflexivity.
Qed.

(** The faults a reply can carry, and when. *)
Lemma reply_fault_code (tempServer : Throws unit)
  (uuid : string) (req : Request) (st : State)
  (resp : Response) (e : RpcError) :
  delivered (snd (fst (post_mcp_message tempServer uuid req st))) = Some resp ->
  payload resp = Fault e ->
  (code e = CONNECTION_NOT_FOUND
   /\ registry_get (query_sessionId req) st = None)
  \/ (code e = METHOD_NOT_FOUND
      /\ registry_get (query_sessionId req) st <> None
      /\ strict_eq (msg_method (body req)) "initialize" = false
      /\ strict_eq (msg_method (body req)) "tools/list" = false
      /\ strict_eq (msg_method (body req)) "tools/call" = false)
  \/ (code e = INTERNAL_FAULT
      /\ registry_get (query_sessionId req) st <> None).
Proof.
  intros E P. by_paths; try discriminate;
    injection P as <-; cbn;
    first [ left; split; reflexivity
          | right; left; repeat split; (reflexivity || assumption || congruence)
          | right; right; split; [reflexivity | congruence] ].
Qed.

(** The handlers never touch the registry, the timers or the listeners,
    and never create or drop a stream. *)
Lemma res_write_frame (h : nat) (f : Frame) (st st' : State) :
  res_write h f st = inr st' ->
  sessions st' = sessions st /\ mcpConnections st' = mcpConnections st
  /\ intervals st' = intervals st /\ listeners st' = listeners st.
Proof.
  unfold res_write. repeat break_step; intros [= <-]; cbn; auto.
Qed.

Lemma update_nth_length {A : Type} (n : nat) (x : A) (l : list A) :
  length (update_nth n x l) = length l.
Proof.
  revert n. induction l as [|y r IH]; intros [|n]; cbn; auto.
Qed.

Lemma res_write_streams (h : nat) (f : Frame) (st st' : State) :
  res_write h f st = inr st' -> length (streams st') = length (streams st).
Proof.
  unfold res_write. repeat break_step; intros [= <-]; cbn.
  apply update_nth_length.
Qed.

Lemma post_frame (tempServer : Throws unit)
  (uuid : string) (req : Request) (st : State) :
  let st' := fst (fst (post_mcp_message tempServer uuid req st)) in
  mcpConnections st' = mcpConnections st /\ intervals st' = intervals st
  /\ listeners st' = listeners st
  /\ length (streams st') = length (streams st).
Proof.
  by_paths; auto;
    match goal with
    | H : res_write _ _ _ = inr _ |- _ =>
        pose proof (res_write_frame _ _ _ _ H) as (? & ? & ? & ?);
        pose proof (res_write_streams _ _ _ _ H); cbn in *; auto
    end.
Qed.

(** ** C1: an unresolved correlation id *)

(** C1. A POST whose [sessionId] query parameter names no registered
    connection is answered with HTTP 404 and a JSON-RPC error of code
    -32001, message "Connection not found", that carries the version tag
    "2.0" and echoes the body's id; the state is left as it was and no
    stream is written, whatever the method and whatever
    [createMCPServer] would do; -32001 differs from the two other fault
    codes, and no other path of the handler ever uses it. *)
Theorem unresolved_connection_rejected (tempServer : Throws unit)
  (uuid : string) (req : Request) (st : State) :
  registry_get (query_sessionId req) st = None ->
  post_mcp_message tempServer uuid req st =
    (st,
     {| status := 404;
        reply_body :=
          JsonEnvelope
            {| resp_jsonrpc := "2.0";
               payload :=
                 Fault
                   {| code := (-32001)%Z;
                      message := "Connection not found";
                      debug :=
                        Some {| requestedId := query_sessionId req;
                                totalConnections := length (mcpConnections st);
                                availableIds := map fst (mcpConnections st);
                                debug_message := msg_method (body req);
                                debug_accept := acceptHeader req;
                                allHeaders := headers req |} |};
               resp_id := msg_id (body req) |} |},
     [])
  /\ (-32001 <> -32601)%Z
  /\ (-32001 <> -32603)%Z
  /\ (forall tempServer' uuid' req' st' resp e,
        delivered (snd (fst (post_mcp_message tempServer' uuid' req' st')))
        = Some resp ->
        payload resp = Fault e ->
        code e = (-32001)%Z ->
        registry_get (query_sessionId req') st' = None).
Proof.
  intros H. repeat split.
  - unfold post_mcp_message. rewrite H. reflexivity.
  - discriminate.
  - discriminate.
  - intros tempServer' uuid' req' st' resp e D P C.
    destruct (reply_fault_code _ _ _ _ _ _ D P)
      as [[_ N] | [[C' _] | [C' _]]];
      [assumption | rewrite C in C'; discriminate C' ..].
Qed.

Lemma unresolved_connection_rejected_witness :
  post_mcp_message (inr tt) "u"
    (Sample.request (Some "nonexistent") Sample.json_client
       (Some "initialize") None)
    Sample.connected
  = (Sample.connected,
     {| status := 404;
        reply_body :=
          JsonEnvelope
            {| resp_jsonrpc := "2.0";
               payload :=
                 Fault
                   {| code := (-32001)%Z;
                      message := "Connection not found";
                      debug :=
                        Some {| requestedId := Some "nonexistent";
                                totalConnections := 1;
                                availableIds := ["c-1"];
                                debug_message := Some "initialize";
                                debug_accept := "application/json";
                                allHeaders := Sample.json_client |} |};
               resp_id := Some (JNum 1) |} |},
     []).
Proof.
  exact (proj1
    (unresolved_connection_rejected (inr tt) "u"
       (Sample.request (Some "nonexistent") Sample.json_client
          (Some "initialize") None)
       Sample.connected eq_refl)).
Defined.

(** ** C2: a failing tool is answered with a result *)

Lemma append_assoc (a b c : string) : (a ++ b) ++ c = a ++ (b ++ c).
Proof. induction a as [|x r IH]; cbn; congruence. Qed.

Lemma mentions_after (a x n : string) : mentions x n -> mentions (a ++ x) n.
Proof.
  intros (before & after & ->). exists (a ++ before), after.
  now rewrite append_assoc.
Qed.

Lemma strict_eq_other (v : option string) (a b : string) :
  strict_eq v a = true -> a <> b -> strict_eq v b = false.
Proof.
  destruct v as [s|]; cbn; [|discriminate].
  intros E N. apply String.eqb_eq in E. subst.
  now apply String.eqb_neq.
Qed.

Lemma unknown_tool_throws (uuid n : string) (args : option ToolArgs)
  (store : Dict.t Session) :
  known_tool n = false ->
  run_tool uuid (Some n) args store
  = (store, inl (Error ("Unknown tool: " ++ n))).
Proof.
  unfold known_tool, run_tool, strict_eq. cbn [map tool_name tools existsb].
  intros H. repeat (apply orb_false_iff in H; destruct H as [-> H]).
  reflexivity.
Qed.

Lemma sessions_get_missing (key : string) (store : Dict.t Session) :
  Dict.get key store = None ->
  sessions_get key store = Inherited \/ sessions_get key store = Undefined.
Proof.
  unfold sessions_get. intros ->.
  destruct (existsb _ _); auto.
Qed.

Lemma sessions_get_own (key : string) (store : Dict.t Session) (s : Session) :
  Dict.get key store = Some s -> sessions_get key store = Own s.
Proof. unfold sessions_get. now intros ->. Qed.

Lemma named_failure_throws (uuid : string) (n : option string)
  (args : option ToolArgs) (store : Dict.t Session) :
  tool_failure store n args ->
  exists toolError, run_tool uuid n args store = (store, inl toolError).
Proof.
  intros [m a K | m a I G | a session G F].
  - eexists. now apply unknown_tool_throws.
  - destruct (sessions_get_missing _ _ G) as [S | S];
      cbn in I; destruct I as [<- | [<- | [<- | []]]];
      unfold run_tool, list_documents, get_document, upload_document;
      cbn; rewrite S; eexists; reflexivity.
  - unfold run_tool, get_document. cbn.
    rewrite (sessions_get_own _ _ _ G). cbn. rewrite F. eexists; reflexivity.
Qed.

Lemma tools_call_route (tempServer : Throws unit)
  (uuid : string) (req : Request) (st : State)
  (connection : Connection) :
  registry_get (query_sessionId req) st = Some connection ->
  strict_eq (msg_method (body req)) "tools/call" = true ->
  post_mcp_message tempServer uuid req st =
    match tools_call uuid req st with
    | inr out => out
    | inl (error, writes) =>
        (st,
         reply 500
           (JsonEnvelope
              (failure INTERNAL_FAULT (exn_message error) None
                 (msg_id (body req)))),
         writes)
    end.
Proof.
  intros L M. unfold post_mcp_message, dispatch. rewrite L.
  rewrite (strict_eq_other _ _ "initialize" M) by discriminate.
  rewrite (strict_eq_other _ _ "tools/list" M) by discriminate.
  rewrite M. reflexivity.
Qed.

(** C2. On a live connection, whenever the tool of a [tools/call] throws,
    the client is answered (HTTP 200) with a JSON-RPC response that
    carries a [result], not an [error]: a Tool Result with [isError: true]
    whose single text block is the failure's message after
    "Tool execution failed: "; no SSE stream is written. The failures the
    specification names (unknown tool name, missing session, missing
    document) do make the tool throw, and for an unknown name the text
    mentions that name. *)
Theorem tool_failure_is_a_result (tempServer : Throws unit)
  (uuid : string) (req : Request) (st : State)
  (connection : Connection) (p : CallParams) :
  registry_get (query_sessionId req) st = Some connection ->
  strict_eq (msg_method (body req)) "tools/call" = true ->
  msg_params (body req) = Some p ->
  (forall store toolError,
      run_tool uuid (name p) (arguments p) (sessions st) = (store, inl toolError) ->
      exists r,
        post_mcp_message tempServer uuid req st = (set_sessions store st, r, [])
        /\ status r = 200%Z
        /\ delivered r =
             Some {| resp_jsonrpc := "2.0";
                     payload :=
                       Result
                         (OfToolCall
                            {| content :=
                                 [ {| block_type := "text";
                                      block_text :=
                                        Literal ("Tool execution failed: "
                                                 ++ exn_message toolError) |} ];
                               isError := true |});
                     resp_id := msg_id (body req) |})
  /\ (tool_failure (sessions st) (name p) (arguments p) ->
      exists toolError,
        run_tool uuid (name p) (arguments p) (sessions st)
        = (sessions st, inl toolError)
        /\ (forall n, name p = Some n -> known_tool n = false ->
            mentions ("Tool execution failed: " ++ exn_message toolError) n)).
Proof.
  intros L M P. split.
  - intros store toolError R.
    rewrite (tools_call_route tempServer uuid req st _ L M).
    unfold tools_call. rewrite P, R.
    destruct (wantsSSE req); eexists; repeat split; reflexivity.
  - intros F. destruct (named_failure_throws uuid _ _ _ F) as [toolError R].
    exists toolError. split; [assumption|].
    intros n N K. rewrite N in R.
    rewrite (unknown_tool_throws uuid n (arguments p) (sessions st) K) in R.
    injection R as <-. apply mentions_after.
    exact (mentions_append "Unknown tool: " n).
Qed.

Lemma tool_failure_is_a_result_witness :
  exists r,
    post_mcp_message (inr tt) "u"
      (Sample.request (Some "c-1") Sample.json_client (Some "tools/call")
         (Sample.call_tool "unknown_tool" Sample.no_args))
      Sample.connected
    = (Sample.connected, r, [])
    /\ status r = 200%Z
    /\ delivered r =
         Some {| resp_jsonrpc := "2.0";
                 payload :=
                   Result
                     (OfToolCall
                        {| content :=
                             [ {| block_type := "text";
                                  block_text :=
                                    Literal
                                      "Tool execution failed: Unknown tool: unknown_tool" |} ];
                           isError := true |});
                 resp_id := Some (JNum 1) |}.
Proof.
  destruct (tool_failure_is_a_result (inr tt) "u"
              (Sample.request (Some "c-1") Sample.json_client
                 (Some "tools/call")
                 (Sample.call_tool "unknown_tool" Sample.no_args))
              Sample.connected {| res := 0 |}
              {| name := Some "unknown_tool";
                 arguments := Some Sample.no_args |}
              eq_refl eq_refl eq_refl) as [H _].
  exact (H [] (Error "Unknown tool: unknown_tool") eq_refl).
Defined.

(** ** Writing on a stream *)

Lemma nth_error_update_nth {A : Type} (n : nat) (x y : A) (l : list A) :
  nth_error l n = Some y -> nth_error (update_nth n x l) n = Some x.
Proof.
  revert n. induction l as [|z r IH]; intros [|n]; cbn; try discriminate; auto.
Qed.

Lemma nth_error_update_nth_ne {A : Type} (n n' : nat) (x : A) (l : list A) :
  n <> n' -> nth_error (update_nth n x l) n' = nth_error l n'.
Proof.
  revert n n'. induction l as [|y r IH]; intros [|n] [|n'] N; cbn;
    try reflexivity; try contradiction.
  apply IH. lia.
Qed.

Lemma res_write_accepts (h : nat) (f : Frame) (st : State) (s : Stream) :
  nth_error (streams st) h = Some s -> write_fault s = None ->
  exists st',
    res_write h f st = inr st'
    /\ frames_of h st' = (accepted s ++ [f])%list
    /\ sessions st' = sessions st.
Proof.
  intros N W. unfold res_write. rewrite N, W. eexists. split; [reflexivity|].
  split; [|reflexivity].
  unfold frames_of. cbn. now rewrite (nth_error_update_nth _ _ _ _ N).
Qed.

Lemma res_write_rejects (h : nat) (f : Frame) (st : State) (s : Stream)
  (m : string) :
  nth_error (streams st) h = Some s -> write_fault s = Some m ->
  res_write h f st = inl (Error m).
Proof. intros N W. unfold res_write. now rewrite N, W. Qed.

Lemma writable_inv (h : nat) (st : State) :
  writable h st = true ->
  exists s, nth_error (streams st) h = Some s
            /\ writableEnded s = false /\ write_fault s = None.
Proof.
  unfold writable. destruct (nth_error (streams st) h) as [s|]; [|discriminate].
  destruct (writableEnded s) eqn:E, (write_fault s) eqn:W; cbn;
    try discriminate.
  intros _. now exists s.
Qed.

Lemma not_writable_inv (h : nat) (st : State) :
  writable h st = false ->
  res_writableEnded h st = true
  \/ forall f, exists e, res_write h f st = inl e.
Proof.
  unfold writable, res_writableEnded, res_write.
  destruct (nth_error (streams st) h) as [s|]; [|intros _; right; eauto].
  destruct (writableEnded s) eqn:E, (write_fault s) eqn:W; cbn;
    try discriminate; eauto.
Qed.

(** ** C3: delivery of a tool's result *)

(** The result of a tool that returned normally is delivered by rule 1:
    on the original stream with an acknowledgment on the POST when the
    stream is registered and writable, inline on the POST otherwise. *)
Lemma successful_tool_sse_first (tempServer : Throws unit)
  (uuid : string) (req : Request) (st : State)
  (connection : Connection) (p : CallParams) (store : Dict.t Session)
  (result : ToolResult) :
  registry_get (query_sessionId req) st = Some connection ->
  strict_eq (msg_method (body req)) "tools/call" = true ->
  msg_params (body req) = Some p ->
  run_tool uuid (name p) (arguments p) (sessions st) = (store, inr result) ->
  sse_first (query_sessionId req)
    (success (OfToolCall result) (msg_id (body req)))
    (set_sessions store st) (post_mcp_message tempServer uuid req st).
Proof.
  intros L M P R. rewrite (tools_call_route tempServer uuid req st _ L M).
  unfold tools_call. rewrite P, R. unfold deliver_tool_result, sse_first.
  change (registry_get (query_sessionId req) (set_sessions store st))
    with (registry_get (query_sessionId req) st).
  rewrite L. set (st1 := set_sessions store st).
  set (response := success (OfToolCall result) (msg_id (body req))).
  destruct (writable (res connection) st1) eqn:W.
  - destruct (writable_inv _ _ W) as (s & N & E & F).
    destruct (res_write_accepts _ (MessageEvent response) _ _ N F)
      as (st2 & Wr & Fr & _).
    unfold res_writableEnded. rewrite N, E. cbn [negb]. rewrite Wr.
    repeat split. unfold frames_of at 2. now rewrite N.
  - destruct (not_writable_inv _ _ W) as [E | Wr].
    + rewrite E. cbn. auto.
    + destruct (Wr (MessageEvent response)) as [e ->].
      destruct (negb _); cbn; auto.
Qed.

(** C3. A [tools/call] whose tool fails also produces a Tool Result (with
    [isError: true]), but that result is never offered to the original
    stream: with the stream registered and writable, the unknown-tool
    request below is answered in full on the POST, the handler makes no
    [res.write] on any SSE stream, and delivery rule 1 does not hold of
    the outcome. *)
Theorem tool_error_bypasses_stream :
  writable 0 Sample.connected = true
  /\ registry_get (Some "c-1") Sample.connected = Some {| res := 0 |}
  /\ post_mcp_message (inr tt) "u"
       (Sample.request (Some "c-1") Sample.json_client (Some "tools/call")
          (Sample.call_tool "unknown_tool" Sample.no_args))
       Sample.connected
     = (Sample.connected,
        reply 200
          (JsonEnvelope
             (tool_error_response (Error "Unknown tool: unknown_tool")
                (Some (JNum 1)))),
        [])
  /\ ~ sse_first (Some "c-1")
        (tool_error_response (Error "Unknown tool: unknown_tool")
           (Some (JNum 1)))
        Sample.connected
        (post_mcp_message (inr tt) "u"
           (Sample.request (Some "c-1") Sample.json_client (Some "tools/call")
              (Sample.call_tool "unknown_tool" Sample.no_args))
           Sample.connected).
Proof.
  repeat split; try reflexivity.
  vm_compute. intros (H & _). discriminate H.
Qed.

(** ** C6: [initialize] and [tools/list] *)

Lemma handshake_route (tempServer : Throws unit) (uuid : string)
  (req : Request) (st : State) (connection : Connection) (r : ResultBody) :
  registry_get (query_sessionId req) st = Some connection ->
  (strict_eq (msg_method (body req)) "initialize" = true
   /\ r = OfInitialize initialize_result)
  \/ (strict_eq (msg_method (body req)) "tools/list" = true
      /\ tempServer = inr tt /\ r = OfToolsList tools) ->
  post_mcp_message tempServer uuid req st =
    match push_and_answer connection (wantsSSE req)
            (success r (msg_id (body req))) st with
    | inr out => out
    | inl (error, writes) =>
        (st,
         reply 500
           (JsonEnvelope
              (failure INTERNAL_FAULT (exn_message error) None
                 (msg_id (body req)))),
         writes)
    end.
Proof.
  intros L [[M ->] | (M & -> & ->)]; unfold post_mcp_message, dispatch;
    rewrite L.
  - now rewrite M.
  - rewrite (strict_eq_other _ _ "initialize" M) by discriminate.
    now rewrite M.
Qed.

Lemma server_fault_route (tempServer : Throws unit) (uuid : string)
  (req : Request) (st : State) (connection : Connection) (error : Exn) :
  registry_get (query_sessionId req) st = Some connection ->
  strict_eq (msg_method (body req)) "tools/list" = true ->
  tempServer = inl error ->
  post_mcp_message tempServer uuid req st
  = (st,
     reply 500
       (JsonEnvelope
          (failure INTERNAL_FAULT (exn_message error) None
             (msg_id (body req)))),
     []).
Proof.
  intros L M ->. unfold post_mcp_message, dispatch. rewrite L.
  rewrite (strict_eq_other _ _ "initialize" M) by discriminate.
  now rewrite M.
Qed.

(** C6 (as amended). On a resolved connection the success response to
    [initialize], and to [tools/list] when [createMCPServer] returns, is
    handed to [res.write] on the connection's stream as an
    [event: message] frame, whatever the Accept header; the stream taking
    the write, the frame is appended to it and the POST is answered by
    rule 2 (the full response inline exactly when the POST did not declare
    [text/event-stream], an empty 202 otherwise). The response carries
    the version tag "2.0" and the request's id as it came, the
    [initialize] result the [protocolVersion]. A protocol fault is not
    pushed: when [createMCPServer] throws in the [tools/list] branch, the
    POST is answered with HTTP 500 and the internal fault -32603, whatever
    the Accept header, the state is left as it was and nothing is
    written. *)
Theorem handshake_delivery (tempServer : Throws unit) (uuid : string)
  (req : Request) (st : State) (connection : Connection) :
  registry_get (query_sessionId req) st = Some connection ->
  (forall r,
      (strict_eq (msg_method (body req)) "initialize" = true
       /\ r = OfInitialize
                {| protocolVersion := "2024-11-05";
                   capabilities := ["tools"; "resources"];
                   serverInfo := ("ai-foundry-mcp-gateway", "1.0.0") |})
      \/ (strict_eq (msg_method (body req)) "tools/list" = true
          /\ tempServer = inr tt /\ r = OfToolsList tools) ->
      let response :=
        {| resp_jsonrpc := "2.0"; payload := Result r;
           resp_id := msg_id (body req) |} in
      (exists w, snd (post_mcp_message tempServer uuid req st) = [w]
                 /\ target w = res connection
                 /\ frame w = MessageEvent response)
      /\ (forall s, nth_error (streams st) (res connection) = Some s ->
            write_fault s = None ->
            delivery_rule_2 (res connection) (wantsSSE req) response st
              (post_mcp_message tempServer uuid req st)))
  /\ (forall error,
        strict_eq (msg_method (body req)) "tools/list" = true ->
        tempServer = inl error ->
        post_mcp_message tempServer uuid req st
        = (st,
           {| status := 500;
              reply_body :=
                JsonEnvelope
                  {| resp_jsonrpc := "2.0";
                     payload :=
                       Fault {| code := (-32603)%Z;
                                message := exn_message error;
                                debug := None |};
                     resp_id := msg_id (body req) |} |},
           [])).
Proof.
  intros L. split.
  - intros r M response.
    rewrite (handshake_route tempServer uuid req st _ r L M).
    change (success r (msg_id (body req))) with response.
    unfold push_and_answer. split.
    + destruct (res_write _ _ st) as [e|st']; eexists; cbn; eauto.
    + intros s N F.
      destruct (res_write_accepts _ (MessageEvent response) _ _ N F)
        as (st' & -> & Fr & _).
      unfold delivery_rule_2. split; [|reflexivity].
      unfold frames_of at 2. now rewrite N.
  - intros error M T.
    exact (server_fault_route tempServer uuid req st _ error L M T).
Qed.

Lemma handshake_delivery_witness :
  delivery_rule_2 0 false
    {| resp_jsonrpc := "2.0"; payload := Result (OfToolsList tools);
       resp_id := Some (JNum 1) |}
    Sample.connected
    (post_mcp_message (inr tt) "u"
       (Sample.request (Some "c-1") Sample.json_client (Some "tools/list") None)
       Sample.connected).
Proof.
  refine (proj2
    (proj1
       (handshake_delivery (inr tt) "u"
          (Sample.request (Some "c-1") Sample.json_client
             (Some "tools/list") None)
          Sample.connected {| res := 0 |} eq_refl)
       (OfToolsList tools)
       (or_intror (conj eq_refl (conj eq_refl eq_refl))))
    _ eq_refl eq_refl).
Defined.

(** C6 as stated fails for a protocol fault. The stream of the connection
    is registered and writable; [createMCPServer] throws in the
    [tools/list] branch; the response, the internal fault -32603, is
    returned inline with HTTP 500 to a client that declared
    [text/event-stream], and nothing is written on the stream. *)
Lemma tools_list_fault_not_pushed :
  registry_get (Some "c-1") Sample.connected = Some {| res := 0 |}
  /\ writable 0 Sample.connected = true
  /\ post_mcp_message (inl (Error "createMCPServer failed")) "u"
       (Sample.request (Some "c-1") Sample.sse_client (Some "tools/list") None)
       Sample.connected
     = (Sample.connected,
        {| status := 500;
           reply_body :=
             JsonEnvelope
               {| resp_jsonrpc := "2.0";
                  payload :=
                    Fault {| code := (-32603)%Z;
                             message := "createMCPServer failed";
                             debug := None |};
                  resp_id := Some (JNum 1) |} |},
        [])
  /\ ~ delivery_rule_2 0 true
        {| resp_jsonrpc := "2.0";
           payload :=
             Fault {| code := (-32603)%Z;
                      message := "createMCPServer failed";
                      debug := None |};
           resp_id := Some (JNum 1) |}
        Sample.connected
        (post_mcp_message (inl (Error "createMCPServer failed")) "u"
           (Sample.request (Some "c-1") Sample.sse_client
              (Some "tools/list") None)
           Sample.connected).
Proof.
  repeat split; try reflexivity.
  vm_compute. intros (H & _). discriminate H.
Qed.

(** ** C8: an unknown method *)

(** C8 (as amended). On a resolved connection a method other than
    [initialize], [tools/list] and [tools/call] yields the JSON-RPC error
    -32601 whose message names the method. For a client that declared
    [text/event-stream] the error is the single [event: message] frame of
    the POST response itself and the connection's stream is not written;
    for any other client the error is pushed onto the connection's stream
    (when it takes the write) and the POST is answered with the bare
    receipt [{received: true}], not with the error. *)
Theorem unknown_method_delivery (tempServer : Throws unit)
  (uuid : string) (req : Request) (st : State)
  (connection : Connection) :
  registry_get (query_sessionId req) st = Some connection ->
  strict_eq (msg_method (body req)) "initialize" = false ->
  strict_eq (msg_method (body req)) "tools/list" = false ->
  strict_eq (msg_method (body req)) "tools/call" = false ->
  let errorResponse :=
    failure METHOD_NOT_FOUND
      ("Method not found: " ++ Js.template (msg_method (body req)))
      None (msg_id (body req)) in
  mentions ("Method not found: " ++ Js.template (msg_method (body req)))
    (Js.template (msg_method (body req)))
  /\ (wantsSSE req = true ->
      post_mcp_message tempServer uuid req st
      = (st, reply 200 (EventStream [MessageEvent errorResponse]), []))
  /\ (wantsSSE req = false ->
      forall s, nth_error (streams st) (res connection) = Some s ->
      write_fault s = None ->
      exists st' w,
        post_mcp_message tempServer uuid req st
        = (st', reply 200 (JsonObject (JObj [("received", JBool true)])), [w])
        /\ frames_of (res connection) st'
           = (accepted s ++ [MessageEvent errorResponse])%list
        /\ target w = res connection
        /\ frame w = MessageEvent errorResponse).
Proof.
  intros L M1 M2 M3 errorResponse. split; [apply mentions_append|].
  unfold post_mcp_message, dispatch, method_not_found.
  rewrite L, M1, M2, M3. split.
  - now intros ->.
  - intros -> s N F.
    destruct (res_write_accepts _ (MessageEvent errorResponse) _ _ N F)
      as (st' & W & Fr & _).
    unfold errorResponse, METHOD_NOT_FOUND in *. rewrite W.
    eexists _, _. repeat split. exact Fr.
Qed.

Lemma unknown_method_delivery_witness :
  post_mcp_message (inr tt) "u"
    (Sample.request (Some "c-1") Sample.sse_client (Some "resources/list") None)
    Sample.connected
  = (Sample.connected,
     reply 200
       (EventStream
          [MessageEvent
             (failure (-32601) "Method not found: resources/list" None
                (Some (JNum 1)))]),
     []).
Proof.
  exact (proj1 (proj2
    (unknown_method_delivery (inr tt) "u"
       (Sample.request (Some "c-1") Sample.sse_client
          (Some "resources/list") None)
       Sample.connected {| res := 0 |}
       eq_refl eq_refl eq_refl eq_refl)) eq_refl).
Defined.

(** C8 as stated fails both ways: for the streaming client nothing is
    pushed onto the connection's stream, and for the plain client the
    POST does not return the error response. *)
Lemma unknown_method_not_rule_2 :
  ~ delivery_rule_2 0 true
      (failure (-32601) "Method not found: resources/list" None
         (Some (JNum 1)))
      Sample.connected
      (post_mcp_message (inr tt) "u"
         (Sample.request (Some "c-1") Sample.sse_client
            (Some "resources/list") None)
         Sample.connected)
  /\ ~ delivery_rule_2 0 false
        (failure (-32601) "Method not found: resources/list" None
           (Some (JNum 1)))
        Sample.connected
        (post_mcp_message (inr tt) "u"
           (Sample.request (Some "c-1") Sample.json_client
              (Some "resources/list") None)
           Sample.connected).
Proof.
  split.
  - vm_compute. intros (H & _). discriminate H.
  - vm_compute. intros (_ & H). discriminate H.
Qed.

(** ** C7: malformed envelopes *)

(** C7 (as amended). The handler validates no envelope shape. The
    [jsonrpc] member is never read: changing it changes nothing. Every
    envelope a reply carries echoes the id as supplied, so a request
    without id gets a response without id, not [null]. The only fault
    codes ever sent are -32001, -32601 and -32603: an envelope without a
    known method on a resolved connection falls to method-not-found, and a
    [tools/call] without [params] to the internal fault with HTTP 500. *)
Theorem no_envelope_validation (tempServer : Throws unit)
  (uuid : string) (req : Request) (st : State) :
  (forall j,
      post_mcp_message tempServer uuid (with_jsonrpc j req) st
      = post_mcp_message tempServer uuid req st)
  /\ (forall resp,
        delivered (snd (fst (post_mcp_message tempServer uuid req st))) = Some resp ->
        resp_id resp = msg_id (body req)
        /\ forall e, payload resp = Fault e ->
                     code e = CONNECTION_NOT_FOUND
                     \/ code e = METHOD_NOT_FOUND
                     \/ code e = INTERNAL_FAULT)
  /\ (forall connection,
        registry_get (query_sessionId req) st = Some connection ->
        strict_eq (msg_method (body req)) "tools/call" = true ->
        msg_params (body req) = None ->
        exists m,
          post_mcp_message tempServer uuid req st
          = (st, reply 500 (JsonEnvelope
                              (failure INTERNAL_FAULT m None
                                 (msg_id (body req)))), []))
  /\ ~ rejected_as_malformed req (snd (fst (post_mcp_message tempServer uuid req st))).
Proof.
  split; [|split; [|split]].
  - intros j. destruct req as [q h [j0 i m p]]. reflexivity.
  - intros resp D. split; [now apply (reply_echoes_id tempServer uuid req st)|].
    intros e P.
    destruct (reply_fault_code _ _ _ _ _ _ D P) as [[C _] | [[C _] | [C _]]]; auto.
  - intros connection L M P.
    rewrite (tools_call_route tempServer uuid req st _ L M). unfold tools_call.
    rewrite P. eexists. reflexivity.
  - intros (resp & e & D & P & C1 & C2 & C3 & _).
    destruct (reply_fault_code _ _ _ _ _ _ D P) as [[C _] | [[C _] | [C _]]];
      contradiction.
Qed.

Lemma no_envelope_validation_witness :
  exists m,
    post_mcp_message (inr tt) "u"
      (Sample.request (Some "c-1") Sample.json_client (Some "tools/call") None)
      Sample.connected
    = (Sample.connected,
       reply 500 (JsonEnvelope (failure (-32603) m None (Some (JNum 1)))), []).
Proof.
  exact (proj1 (proj2 (proj2
    (no_envelope_validation (inr tt) "u"
       (Sample.request (Some "c-1") Sample.json_client (Some "tools/call") None)
       Sample.connected))) {| res := 0 |} eq_refl eq_refl eq_refl).
Defined.

(** C7 as stated fails: an envelope without the version tag and without
    an id is not well formed, yet on a live connection it is served as an
    [initialize] (a result, no error), and the response has no id at
    all. *)
Lemma malformed_envelope_accepted :
  well_formed_envelope
    {| msg_jsonrpc := None; msg_id := None; msg_method := Some "initialize";
       msg_params := None |} = false
  /\ delivered
       (snd (fst (post_mcp_message (inr tt) "u"
                    {| query_sessionId := Some "c-1";
                       headers := Sample.json_client;
                       body := {| msg_jsonrpc := None; msg_id := None;
                                  msg_method := Some "initialize";
                                  msg_params := None |} |}
                    Sample.connected)))
     = Some (success (OfInitialize initialize_result) None)
  /\ ~ rejected_as_malformed
        {| query_sessionId := Some "c-1"; headers := Sample.json_client;
           body := {| msg_jsonrpc := None; msg_id := None;
                      msg_method := Some "initialize";
                      msg_params := None |} |}
        (snd (fst (post_mcp_message (inr tt) "u"
                     {| query_sessionId := Some "c-1";
                        headers := Sample.json_client;
                        body := {| msg_jsonrpc := None; msg_id := None;
                                   msg_method := Some "initialize";
                                   msg_params := None |} |}
                     Sample.connected))).
Proof.
  repeat split; try reflexivity.
  intros (resp & e & D & P & _).
  vm_compute in D. injection D as <-. discriminate P.
Qed.

(** ** The registry *)

Section DictFacts.
Variable V : Type.
Implicit Types (m : Dict.t V) (k : string) (v : V).

Lemma get_set_eq m k v : Dict.get k (Dict.set k v m) = Some v.
Proof.
  induction m as [|[k' v'] r IH]; cbn.
  - now rewrite String.eqb_refl.
  - destruct (String.eqb k k') eqn:E; cbn.
    + now rewrite String.eqb_refl.
    + now rewrite E.
Qed.

Lemma get_set_ne m k k' v :
  k' <> k -> Dict.get k' (Dict.set k v m) = Dict.get k' m.
Proof.
  intros N. induction m as [|[k0 v0] r IH]; cbn.
  - apply String.eqb_neq in N. now rewrite N.
  - destruct (String.eqb k k0) eqn:E; cbn.
    + apply String.eqb_eq in E. subst k0.
      apply String.eqb_neq in N. now rewrite N.
    + now rewrite IH.
Qed.



End DictFacts.

Lemma get_delete_same (V : Type) (m : Dict.t V) (k : string) :
  Dict.get k (Dict.delete k m) = None.
Proof.
  induction m as [|[k0 v0] r IH]; cbn; [reflexivity|].
  destruct (String.eqb k k0) eqn:E; [exact IH|]. cbn. now rewrite E.
Qed.





(** ** The SSE handler, field by field *)

Lemma nth_error_snoc {A : Type} (l : list A) (x : A) :
  nth_error (l ++ [x]) (length l) = Some x.
Proof. induction l as [|y r IH]; cbn; auto. Qed.

Lemma filter_out_snoc (h : nat) (l : list nat) :
  filter (fun h' => negb (Nat.eqb h' h)) (l ++ [h])
  = filter (fun h' => negb (Nat.eqb h' h)) l.
Proof.
  rewrite filter_app. cbn. rewrite Nat.eqb_refl. cbn. apply app_nil_r.
Qed.

Lemma get_mcp_sse_fields (uuid : string) (fault : option SetupFault)
  (st : State) :
  let h := length (streams st) in
  let st' := fst (fst (get_mcp_sse uuid fault st)) in
  length (streams st') = S h
  /\ (exists w, snd (get_mcp_sse uuid fault st) = [w] /\ target w = h
                /\ (threw w = true -> fault <> None))
  /\ ((fault <> None
       /\ mcpConnections st' = mcpConnections st
       /\ listeners st' = listeners st
       /\ intervals st'
          = filter (fun h' => negb (Nat.eqb h' h)) (intervals st))
      \/ (fault = None
          /\ mcpConnections st'
             = Dict.set uuid {| res := h |} (mcpConnections st)
          /\ listeners st' = (listeners st ++ [(h, uuid)])%list
          /\ intervals st' = (intervals st ++ [h])%list)).
Proof.
  unfold get_mcp_sse, res_write, res_end. cbn.
  rewrite nth_error_snoc. cbn.
  destruct fault as [[m|]|]; cbn.
  - rewrite update_nth_length, length_app. cbn. split; [lia|]. split.
    + eexists. repeat split. discriminate.
    + left. repeat split; [discriminate|]. apply filter_out_snoc.
  - rewrite update_nth_length, length_app. cbn. split; [lia|]. split.
    + eexists. repeat split. discriminate.
    + left. repeat split; [discriminate|]. apply filter_out_snoc.
  - rewrite update_nth_length, length_app. cbn. split; [lia|]. split.
    + eexists. repeat split. discriminate.
    + right. repeat split.
Qed.




(** ** The invariant holds along every run *)









(** ** C4: writes and removal *)


Lemma timer_cleared (h : nat) (st : State) :
  timer_active h (clearInterval h st) = false.
Proof.
  unfold timer_active, clearInterval. cbn.
  destruct (existsb _ _) eqn:E; [|reflexivity].
  apply existsb_exists in E. destruct E as (x & I & E).
  apply filter_In in I. destruct I as [_ N].
  apply Nat.eqb_eq in E. subst x. now rewrite Nat.eqb_refl in N.
Qed.





(** *** No registered stream is an ended one *)






(** *** Runs *)











(** ** C5: a failed write *)






(** ** C9: [search_documents] *)

Lemma snippet_of_found (t : string) (needle : string) (i : nat) :
  Js.find needle (Js.toLowerCase t) = Some i ->
  snippet_of t (Js.indexOf (Js.toLowerCase t) needle) = window t i.
Proof.
  intros F. unfold snippet_of, window, Js.indexOf. rewrite F.
  pose proof (find_within _ _ _ F) as W. rewrite toLowerCase_length in W.
  rewrite substring_in_range by lia.
  do 3 f_equal; lia.
Qed.

Lemma snippet_of_not_found (t : string) (needle : string) :
  Js.find needle (Js.toLowerCase t) = None ->
  snippet_of t (Js.indexOf (Js.toLowerCase t) needle)
  = "..." ++ String.substring 0 (Nat.min (String.length t) 49) t ++ "...".
Proof.
  intros F. unfold snippet_of, Js.indexOf. rewrite F.
  rewrite substring_in_range by lia.
  do 3 f_equal; lia.
Qed.

Lemma doc_matches_complete (searchLower : string) (doc : Document) :
  complete doc -> doc_matches searchLower doc = inr (matching searchLower doc).
Proof.
  unfold complete, doc_matches, matching. intros [T Ti].
  destruct (doc_text doc) as [t|]; [|contradiction].
  destruct (doc_title doc) as [ti|]; [|contradiction].
  destruct (Js.includes (Js.toLowerCase t) searchLower); reflexivity.
Qed.

Lemma search_docs_complete (searchLower sid : string) (l : list Document)
  (results : list SearchHit) :
  Forall complete l ->
  search_docs searchLower sid l results
  = inr (results ++ map (hit_of searchLower sid)
                      (filter (matching searchLower) l))%list.
Proof.
  intros C. revert results. induction C as [|doc r Cd Cr IH]; intros results; cbn.
  - now rewrite app_nil_r.
  - rewrite (doc_matches_complete searchLower doc Cd). cbn.
    rewrite IH. destruct (matching searchLower doc); cbn; [|reflexivity].
    now rewrite <- app_assoc.
Qed.

Lemma search_entries_own (searchLower : string) (l : list (string * Session))
  (results : list SearchHit) :
  Forall (fun e => Forall complete (docs (snd e))) l ->
  search_entries searchLower (map (fun e => (fst e, Own (snd e))) l) results
  = inr (results ++ expected_hits searchLower l)%list.
Proof.
  intros C. revert results.
  induction C as [|[sid session] r Cd Cr IH]; intros results; cbn.
  - now rewrite app_nil_r.
  - cbn in Cd. rewrite (search_docs_complete searchLower sid _ results Cd).
    cbn.
    rewrite IH. now rewrite <- app_assoc.
Qed.

Lemma sessions_get_plain (key : string) (store : Dict.t Session) :
  ~ In key object_prototype_keys ->
  sessions_get key store
  = match Dict.get key store with Some s => Own s | None => Undefined end.
Proof.
  intros N. unfold sessions_get. destruct (Dict.get key store); [reflexivity|].
  destruct (existsb (String.eqb key) object_prototype_keys) eqn:E;
    [|reflexivity].
  apply existsb_exists in E. destruct E as (x & I & E).
  apply String.eqb_eq in E. now subst.
Qed.

Lemma search_results_expected (store : Dict.t Session) (a : ToolArgs)
  (q : string) :
  query a = Some q ->
  ~ In (Js.template (sessionId a)) object_prototype_keys ->
  Forall (fun e => Forall complete (docs (snd e)))
    (searched_sessions (sessionId a) store) ->
  search_results (Some a) store
  = inr (expected_hits (Js.toLowerCase q)
           (searched_sessions (sessionId a) store)).
Proof.
  intros Q P C. unfold search_results, arg. cbn. rewrite Q.
  unfold sessionsToSearch, searched_sessions in *.
  destruct (Js.truthy (sessionId a)).
  - rewrite (sessions_get_plain _ store P).
    destruct (Dict.get (Js.template (sessionId a)) store) as [s|];
      [|reflexivity].
    inversion C as [|? ? Cs _]. cbn in Cs. cbn.
    rewrite (search_docs_complete _ _ _ [] Cs). cbn.
    unfold expected_hits. cbn. now rewrite app_nil_r.
  - now rewrite (search_entries_own _ store [] C).
Qed.

(** C9 (as amended). For an ASCII query, when the searched sessions hold
    complete documents of ASCII text (and the session id is not a
    property name of [Object.prototype]), [search_documents] succeeds and
    its results are exactly one hit per matching document, in discovery
    order, counted by [resultCount]. For a document whose text contains
    the query, the snippet is, between ellipses, the text from 50
    characters before the first occurrence to 50 characters after its
    start, cut at the ends of the text: the occurrence is the first one
    and the slice lies within the text. For a document matched through
    its title only, the snippet is the first 49 characters of the text at
    most. After uploading "hello world", the search for "world" returns
    one hit whose snippet contains "hello world". *)
Theorem search_hits_and_snippets (store : Dict.t Session) (a : ToolArgs)
  (q : string) :
  query a = Some q ->
  Js.ascii q = true ->
  ~ In (Js.template (sessionId a)) object_prototype_keys ->
  Forall (fun e => Forall complete (docs (snd e)))
    (searched_sessions (sessionId a) store) ->
  Forall (fun e => Forall ascii_document (docs (snd e)))
    (searched_sessions (sessionId a) store) ->
  let searchLower := Js.toLowerCase q in
  let hits := expected_hits searchLower (searched_sessions (sessionId a) store) in
  search_results (Some a) store = inr hits
  /\ search_documents (Some a) store
     = inr (text_result
              (JObj [ ("query", JStr q);
                      ("resultCount", JNum (Z.of_nat (length hits)));
                      ("results", JArr (map hit_json hits)) ]))
  /\ (forall sid doc t i,
        doc_text doc = Some t -> Js.ascii t = true ->
        Js.find searchLower (Js.toLowerCase t) = Some i ->
        around_first_match searchLower doc (snippet (hit_of searchLower sid doc))
        /\ String.substring i (String.length searchLower) (Js.toLowerCase t)
           = searchLower
        /\ (forall j, j < i ->
            String.substring j (String.length searchLower) (Js.toLowerCase t)
            <> searchLower)
        /\ (i - 50) + (Nat.min (String.length t) (i + 50) - (i - 50))
           <= String.length t)
  /\ (forall sid doc t,
        doc_text doc = Some t -> Js.ascii t = true ->
        Js.find searchLower (Js.toLowerCase t) = None ->
        snippet (hit_of searchLower sid doc)
        = "..." ++ String.substring 0 (Nat.min (String.length t) 49) t ++ "...")
  /\ (forall ti sid,
        Js.ascii ti = true ->
        sid = None \/ sid = Some "s-1" ->
        search_results (Some (Sample.search_for "world" sid))
          (Sample.one_document ti "hello world")
        = inr [ {| hit_sessionId := "s-1"; hit_docId := "d-1";
                   hit_title := Some ti; snippet := "...hello world..." |} ]
        /\ mentions "...hello world..." "hello world").
Proof.
  intros Q Aq P C _ searchLower hits.
  pose proof (search_results_expected store a q Q P C) as R.
  fold searchLower in R. fold hits in R.
  split; [exact R|]. split; [|split; [|split]].
  - unfold search_documents. rewrite R. cbn. now rewrite Q.
  - intros sid doc t i T _ F. split; [|split; [|split]].
    + exists t, i. repeat split; try assumption.
      unfold hit_of. rewrite T. cbn. now apply snippet_of_found.
    + now apply find_occurs.
    + intros j. now apply find_first.
    + pose proof (find_within _ _ _ F) as W.
      rewrite toLowerCase_length in W. lia.
  - intros sid doc t T _ F. unfold hit_of. rewrite T. cbn.
    now apply snippet_of_not_found.
  - intros ti sid _ [-> | ->]; (split; [reflexivity|]);
      exists "...", "..."; reflexivity.
Qed.

Lemma search_hits_and_snippets_witness :
  search_results (Some (Sample.search_for "World" (Some "s-1")))
    (Sample.one_document "greeting" "hello world")
  = inr (expected_hits "world"
           (searched_sessions (Some "s-1")
              (Sample.one_document "greeting" "hello world"))).
Proof.
  refine (proj1
    (search_hits_and_snippets (Sample.one_document "greeting" "hello world")
       (Sample.search_for "World" (Some "s-1")) "World" eq_refl eq_refl
       _ _ _)).
  - vm_compute. intuition discriminate.
  - repeat constructor; discriminate.
  - repeat constructor; cbn; intros x [= <-]; reflexivity.
Defined.

(** C9 as stated fails for a document that matches through its title
    only: it contributes a hit, but the query does not occur in its text,
    so the snippet is not taken around any match. *)
Lemma title_match_snippet :
  search_results (Some (Sample.search_for "world" None))
    (Sample.one_document "world news" "hello")
  = inr [ {| hit_sessionId := "s-1"; hit_docId := "d-1";
             hit_title := Some "world news"; snippet := "...hello..." |} ]
  /\ ~ around_first_match "world"
        {| doc_id := "d-1"; doc_title := Some "world news";
           doc_text := Some "hello" |}
        "...hello...".
Proof.
  split; [reflexivity|].
  intros (t & i & T & F & _). cbn in T. injection T as <-.
  vm_compute in F. discriminate F.
Qed.

(** ** C10: a search in an unknown session *)

(** C10 (as amended). Given a non-empty session id under which no
    session is stored (and which is not a property name of
    [Object.prototype]), [search_documents] returns a result with
    [isError: false], [resultCount] 0 and no results, whereas
    [list_documents], [get_document] and [upload_document] throw for any
    id without a stored session, which the dispatcher reports as
    [isError: true] and which leaves the store as it was. *)
Theorem search_in_unknown_session (uuid : string) (store : Dict.t Session)
  (a : ToolArgs) (q sid : string) :
  query a = Some q -> sessionId a = Some sid ->
  Dict.get sid store = None ->
  (sid <> "" -> ~ In sid object_prototype_keys ->
   search_documents (Some a) store = inr (nothing_found q)
   /\ isError (nothing_found q) = false)
  /\ (forall n,
        In n ["list_documents"; "get_document"; "upload_document"] ->
        fst (run_tool uuid (Some n) (Some a) store) = store
        /\ isError (tool_outcome (snd (run_tool uuid (Some n) (Some a) store)))
           = true).
Proof.
  intros Q S G. split.
  - intros Ne P. split; [|reflexivity].
    assert (P' : ~ In (Js.template (sessionId a)) object_prototype_keys)
      by now rewrite S.
    assert (E : searched_sessions (sessionId a) store = []).
    { unfold searched_sessions. rewrite S. cbn [Js.template]. rewrite G.
      destruct sid; [contradiction | reflexivity]. }
    unfold search_documents.
    rewrite (search_results_expected store a q Q P')
      by (rewrite E; constructor).
    rewrite E. cbn. now rewrite Q.
  - intros n I.
    assert (F : tool_failure store (Some n) (Some a)).
    { apply missing_session; [assumption|]. now rewrite S. }
    destruct (named_failure_throws uuid _ _ _ F) as [e ->]. now split.
Qed.

Lemma search_in_unknown_session_witness :
  search_documents (Some (Sample.search_for "world" (Some "s-2")))
    (Sample.one_document "greeting" "hello world")
  = inr (nothing_found "world")
  /\ isError (nothing_found "world") = false.
Proof.
  refine (proj1
    (search_in_unknown_session "u"
       (Sample.one_document "greeting" "hello world")
       (Sample.search_for "world" (Some "s-2")) "world" "s-2"
       eq_refl eq_refl eq_refl) _ _).
  - discriminate.
  - vm_compute. intuition discriminate.
Defined.

(** C10 as stated fails twice. The empty string names no session, yet a
    search with it looks through every session and finds the document;
    and ["constructor"] names no session either, yet the search with it
    throws, which is reported as [isError: true]. *)
Lemma unknown_session_search_finds :
  Dict.get "" (Sample.one_document "greeting" "hello world") = None
  /\ ~ unknown_session_finds_nothing
        (Sample.one_document "greeting" "hello world")
        (Sample.search_for "world" (Some ""))
  /\ Dict.get "constructor" (Sample.one_document "greeting" "hello world")
     = None
  /\ ~ unknown_session_finds_nothing
        (Sample.one_document "greeting" "hello world")
        (Sample.search_for "world" (Some "constructor"))
  /\ isError
       (tool_outcome
          (search_documents
             (Some (Sample.search_for "world" (Some "constructor")))
             (Sample.one_document "greeting" "hello world"))) = true.
Proof.
  split; [reflexivity|]. split; [|split; [reflexivity|split; [|reflexivity]]].
  - intros C. specialize (C "world" "" eq_refl eq_refl eq_refl).
    vm_compute in C. discriminate C.
  - intros C. specialize (C "world" "constructor" eq_refl eq_refl eq_refl).
    vm_compute in C. discriminate C.
Qed.

(* ================================================================== *)
(** * Further properties of the code *)

(** ** Authentication headers *)

Lemma truthy_inv (v : option string) :
  Js.truthy v = true -> exists s, v = Some s /\ s <> "".
Proof.
  destruct v as [[|c r]|]; cbn; try discriminate.
  intros _. eexists. split; [reflexivity | discriminate].
Qed.

Lemma truthy_some (s : string) : s <> "" -> Js.truthy (Some s) = true.
Proof. destruct s; [contradiction | reflexivity]. Qed.

Lemma auth_headers_inv (apiKey : option string)
  (getToken : Throws (option AccessToken)) (hs : list (string * string)) :
  getAuthHeaders apiKey getToken = inr hs ->
  (exists k, k <> "" /\ apiKey = Some k /\ hs = [("api-key", k)])
  \/ (Js.truthy apiKey = false
      /\ exists t, t <> ""
                   /\ getToken = inr (Some {| token := Some t |})
                   /\ hs = [("Authorization", "Bearer " ++ t)]).
Proof.
  unfold getAuthHeaders. destruct (Js.truthy apiKey) eqn:K.
  - destruct (truthy_inv apiKey K) as (k & -> & Ne). cbn.
    intros [= <-]. left. exists k. repeat split; auto.
  - intros H. right. split; [reflexivity|].
    destruct getToken as [e | [[tk] |]]; cbn in H; try discriminate.
    destruct (Js.truthy tk) eqn:T; [|discriminate].
    destruct (truthy_inv tk T) as (t & -> & Ne).
    injection H as <-. exists t. repeat split; auto.
Qed.

(** X1. When [getAuthHeaders] returns, it returns exactly one header
    with a non-empty credential: the [api-key] header with the configured
    key whenever a non-empty key is configured (whatever the credential
    provider would have answered), and otherwise the [Authorization]
    header with "Bearer " before the non-empty token the provider
    gave. *)
Theorem auth_headers_single (apiKey : option string)
  (getToken : Throws (option AccessToken)) (hs : list (string * string)) :
  getAuthHeaders apiKey getToken = inr hs ->
  (exists k, k <> "" /\ apiKey = Some k /\ hs = [("api-key", k)]
             /\ forall other, getAuthHeaders apiKey other = inr hs)
  \/ (Js.truthy apiKey = false
      /\ exists t, t <> ""
                   /\ getToken = inr (Some {| token := Some t |})
                   /\ hs = [("Authorization", "Bearer " ++ t)]).
Proof.
  intros H. destruct (auth_headers_inv _ _ _ H) as [(k & Ne & -> & ->) | R].
  - left. exists k. repeat split; auto. intros other.
    unfold getAuthHeaders. now rewrite (truthy_some k Ne).
  - now right.
Qed.

Lemma auth_headers_single_witness :
  (exists k, k <> "" /\ Some "secret" = Some k
             /\ [("api-key", "secret")] = [("api-key", k)]
             /\ forall other,
                 getAuthHeaders (Some "secret") other
                 = inr [("api-key", "secret")])
  \/ (Js.truthy (Some "secret") = false
      /\ exists t, t <> ""
                   /\ inl (Error "ENOTFOUND")
                      = inr (Some {| token := Some t |})
                   /\ [("api-key", "secret")]
                      = [("Authorization", "Bearer " ++ t)]).
Proof.
  exact (auth_headers_single (Some "secret") (inl (Error "ENOTFOUND"))
           [("api-key", "secret")] eq_refl).
Defined.

(** X2. [getAuthHeaders] fails exactly when no non-empty API key is
    configured and the credential provider throws, resolves to nothing,
    or resolves to a token object without a non-empty token; every such
    failure is an [Error] whose message starts with
    "Authentication failed: ", followed by the provider's message or by
    "Failed to obtain token from credential provider". *)
Theorem auth_failure (apiKey : option string)
  (getToken : Throws (option AccessToken)) :
  (exists error, getAuthHeaders apiKey getToken = inl error)
  <-> (Js.truthy apiKey = false
       /\ forall t, getToken = inr (Some t) -> Js.truthy (token t) = false).
Proof.
  unfold getAuthHeaders. split.
  - intros [error H]. destruct (Js.truthy apiKey); [discriminate|].
    split; [reflexivity|]. intros t ->. cbn in H.
    destruct (Js.truthy (token t)); [discriminate | reflexivity].
  - intros [-> H]. destruct getToken as [e | [t |]]; cbn; eauto.
    rewrite (H t eq_refl). eauto.
Qed.

(** X3. Every failure of [getAuthHeaders] is the wrapped one: an
    [Error] whose message is "Authentication failed: " followed by the
    message of what went wrong. *)
Theorem auth_failure_wrapped (apiKey : option string)
  (getToken : Throws (option AccessToken)) (error : Exn) :
  getAuthHeaders apiKey getToken = inl error ->
  exists cause,
    error = Error ("Authentication failed: " ++ cause)
    /\ (cause = "Failed to obtain token from credential provider"
        \/ exists e, getToken = inl e /\ cause = exn_message e).
Proof.
  unfold getAuthHeaders. destruct (Js.truthy apiKey); [discriminate|].
  destruct getToken as [e | [t |]]; cbn.
  - intros [= <-]. eexists. split; [reflexivity|]. right. eauto.
  - destruct (Js.truthy (token t)); [discriminate|].
    intros [= <-]. eexists. split; [reflexivity|]. now left.
  - intros [= <-]. eexists. split; [reflexivity|]. now left.
Qed.

Lemma auth_failure_wrapped_witness :
  exists cause,
    Error "Authentication failed: ENOTFOUND"
    = Error ("Authentication failed: " ++ cause)
    /\ (cause = "Failed to obtain token from credential provider"
        \/ exists e, (inl (Error "ENOTFOUND") : Throws (option AccessToken))
                     = inl e
                     /\ cause = exn_message e).
Proof.
  exact (auth_failure_wrapped None (inl (Error "ENOTFOUND"))
           (Error "Authentication failed: ENOTFOUND") eq_refl).
Defined.

(** ** Authenticated requests *)

Lemma get_snoc (V : Type) (l : list (string * V)) (k k' : string) (v : V) :
  Dict.get k (l ++ [(k', v)])%list
  = match Dict.get k l with
    | Some x => Some x
    | None => if String.eqb k k' then Some v else None
    end.
Proof.
  induction l as [|[k0 v0] r IH]; cbn; [reflexivity|].
  destruct (String.eqb k k0); [reflexivity | exact IH].
Qed.

Lemma spread_get (base extra : list (string * string)) (k : string) :
  Dict.get k (JsExt.spread base extra)
  = match Dict.get k (rev extra) with
    | Some v => Some v
    | None => Dict.get k base
    end.
Proof.
  unfold JsExt.spread. revert base.
  induction extra as [|[k' v'] r IH]; intros base; cbn; [reflexivity|].
  rewrite IH, get_snoc. destruct (Dict.get k (rev r)); [reflexivity|].
  destruct (String.eqb_spec k k') as [-> | N].
  - apply get_set_eq.
  - now apply get_set_ne.
Qed.

Lemma get_some_in (V : Type) (l : list (string * V)) (k : string) (v : V) :
  Dict.get k l = Some v -> In (k, v) l.
Proof.
  induction l as [|[k0 v0] r IH]; cbn; [discriminate|].
  destruct (String.eqb_spec k k0) as [-> | N].
  - intros [= ->]. now left.
  - intros H. right. now apply IH.
Qed.

Lemma in_get_nodup (V : Type) (l : list (string * V)) (k : string) (v : V) :
  NoDup (map fst l) -> In (k, v) l -> Dict.get k l = Some v.
Proof.
  induction l as [|[k0 v0] r IH]; cbn; [contradiction|].
  intros N [E | I].
  - injection E as -> ->. now rewrite String.eqb_refl.
  - inversion N as [|? ? Hn Nr]. destruct (String.eqb_spec k k0) as [-> | Ne].
    + exfalso. apply Hn. now apply (in_map fst) in I.
    + now apply IH.
Qed.

Lemma get_rev_nodup (V : Type) (l : list (string * V)) (k : string) :
  NoDup (map fst l) -> Dict.get k (rev l) = Dict.get k l.
Proof.
  intros N.
  assert (Nr : NoDup (map fst (rev l))) by (rewrite map_rev; now apply NoDup_rev).
  destruct (Dict.get k l) as [v|] eqn:G.
  - apply in_get_nodup; [assumption|]. apply -> in_rev. now apply get_some_in.
  - destruct (Dict.get k (rev l)) as [v|] eqn:G'; [|reflexivity].
    apply get_some_in in G'. apply in_rev in G'.
    apply (in_get_nodup _ _ _ _ N) in G'. congruence.
Qed.

(** X4. [makeAuthenticatedRequest] calls [fetch] only when the
    authentication headers were obtained, and then with the given
    endpoint, method and body and with headers in which, name by name, a
    header of [options.headers] wins over the authentication header,
    which wins over the default [Content-Type: application/json]: two
    [fetch] functions that agree on all such requests give the same
    outcome. *)
Theorem request_headers_precedence (apiKey : option string)
  (getToken : Throws (option AccessToken))
  (fetch1 fetch2 : string -> FetchOptions -> Throws FetchResponse)
  (endpoint : string) (options : FetchOptions) :
  NoDup (map fst (opt_headers options)) ->
  (forall auth o,
      getAuthHeaders apiKey getToken = inr auth ->
      opt_method o = opt_method options ->
      opt_body o = opt_body options ->
      (forall k,
          Dict.get k (opt_headers o)
          = match Dict.get k (opt_headers options) with
            | Some v => Some v
            | None =>
                match Dict.get k auth with
                | Some v => Some v
                | None => if String.eqb k "Content-Type"
                          then Some "application/json" else None
                end
            end) ->
      fetch1 endpoint o = fetch2 endpoint o) ->
  makeAuthenticatedRequest apiKey getToken fetch1 endpoint options
  = makeAuthenticatedRequest apiKey getToken fetch2 endpoint options.
Proof.
  intros N H. unfold makeAuthenticatedRequest.
  destruct (getAuthHeaders apiKey getToken) as [e|auth] eqn:A; cbn;
    [reflexivity|].
  match goal with
  | |- context [fetch1 endpoint ?o] =>
      rewrite (H auth o eq_refl eq_refl eq_refl); [reflexivity|]
  end.
  intros k. cbn [opt_headers]. rewrite spread_get, (get_rev_nodup _ _ k N).
  destruct (Dict.get k (opt_headers options)); [reflexivity|].
  rewrite spread_get.
  assert (Na : NoDup (map fst auth)).
  { destruct (auth_headers_inv _ _ _ A)
      as [(x & _ & _ & ->) | (_ & x & _ & _ & ->)];
      cbn; repeat constructor; auto. }
  rewrite (get_rev_nodup _ _ k Na).
  destruct (Dict.get k auth); reflexivity.
Qed.

Lemma request_headers_precedence_witness :
  makeAuthenticatedRequest (Some "secret") (inl (Error "unused"))
    (fun _ o => inl (Error (Js.template (Dict.get "api-key" (opt_headers o)))))
    "https://example.invalid"
    {| opt_method := Some "POST"; opt_body := None;
       opt_headers := [("api-key", "override")] |}
  = makeAuthenticatedRequest (Some "secret") (inl (Error "unused"))
      (fun _ _ => inl (Error "override"))
      "https://example.invalid"
      {| opt_method := Some "POST"; opt_body := None;
         opt_headers := [("api-key", "override")] |}.
Proof.
  apply request_headers_precedence.
  - repeat constructor. intros [].
  - intros auth o _ _ _ K. now rewrite (K "api-key").
Defined.

Lemma or_else_nonempty (v : option string) (d : string) :
  d <> "" -> Js.or_else v d <> "".
Proof. destruct v as [[|c r]|]; cbn; auto. discriminate. Qed.

(** X5. [makeAuthenticatedRequest] returns a response only if [fetch]
    returned it and it is [ok]. It throws in four cases only: the
    authentication failed (the error of [getAuthHeaders], [fetch] not
    involved); [fetch] itself threw (the same error); the response is not
    [ok] and its body is the JSON [null], and then the error is the
    [TypeError] of reading [error] of [null]; or the response is not
    [ok] with any other body, or none that parses, and then the error
    reads "HTTP <status>: <description>" with a description that is never
    empty ("Unknown error" when the body has none). A response that is
    not [ok] is never returned. *)
Theorem authenticated_request_outcome (apiKey : option string)
  (getToken : Throws (option AccessToken))
  (fetch : string -> FetchOptions -> Throws FetchResponse)
  (endpoint : string) (options : FetchOptions) :
  (forall r,
      makeAuthenticatedRequest apiKey getToken fetch endpoint options = inr r ->
      ok r = true /\ exists o, fetch endpoint o = inr r)
  /\ (forall e,
        makeAuthenticatedRequest apiKey getToken fetch endpoint options = inl e ->
        getAuthHeaders apiKey getToken = inl e
        \/ (exists o, fetch endpoint o = inl e)
        \/ (exists o r,
               fetch endpoint o = inr r /\ ok r = false
               /\ json_body r = inr None
               /\ e = TypeError
                        "Cannot read properties of null (reading 'error')")
        \/ (exists o r description,
               fetch endpoint o = inr r /\ ok r = false
               /\ json_body r <> inr None
               /\ description <> ""
               /\ e = Error ("HTTP " ++ decimal (http_status r) ++ ": "
                             ++ description)))
  /\ (forall auth r,
        getAuthHeaders apiKey getToken = inr auth ->
        fetch endpoint
          {| opt_method := opt_method options; opt_body := opt_body options;
             opt_headers :=
               JsExt.spread
                 (JsExt.spread [("Content-Type", "application/json")] auth)
                 (opt_headers options) |}
        = inr r ->
        ok r = false ->
        exists e,
          makeAuthenticatedRequest apiKey getToken fetch endpoint options
          = inl e
          /\ (json_body r = inr None ->
              e = TypeError "Cannot read properties of null (reading 'error')")
          /\ (forall x, json_body r = inl x ->
                e = Error ("HTTP " ++ decimal (http_status r)
                           ++ ": Unknown error"))
          /\ (forall m, json_body r = inr (Some {| error_message := Some m |}) ->
                m <> "" ->
                e = Error ("HTTP " ++ decimal (http_status r) ++ ": " ++ m))).
Proof.
  unfold makeAuthenticatedRequest.
  destruct (getAuthHeaders apiKey getToken) as [a|auth]; cbn.
  - split; [discriminate|]. split; [|discriminate].
    intros e [= <-]. now left.
  - split; [|split].
    + match goal with
      | |- context [fetch endpoint ?o] =>
          destruct (fetch endpoint o) as [x|r] eqn:F
      end; cbn; [discriminate|].
      destruct (ok r) eqn:O; [intros r' [= <-]; eauto|].
      destruct (json_body r) as [x|[d|]]; discriminate.
    + match goal with
      | |- context [fetch endpoint ?o] =>
          destruct (fetch endpoint o) as [x|r] eqn:F
      end; cbn.
      * intros e [= <-]. right. left. eauto.
      * destruct (ok r) eqn:O; [discriminate|].
        destruct (json_body r) as [x|[d|]] eqn:J; intros e [= <-].
        -- right. right. right. eexists _, r, _.
           repeat split; eauto; [rewrite J|]; discriminate.
        -- right. right. right. eexists _, r, _.
           repeat split; eauto; [rewrite J; discriminate|].
           apply or_else_nonempty. discriminate.
        -- right. right. left. eexists _, r. repeat split; eauto.
    + intros auth' r [= <-] F O. rewrite F. cbn. rewrite O.
      destruct (json_body r) as [x|[d|]] eqn:J; eexists;
        (split; [reflexivity|]); (split; [|split]);
        try discriminate; try reflexivity.
      intros m [= ->] Ne. cbn. destruct m; [contradiction | reflexivity].
Qed.

Lemma authenticated_request_outcome_witness :
  exists e,
    makeAuthenticatedRequest (Some "secret") (inr None)
      (fun _ _ => inr {| ok := false; http_status := 502;
                         json_body := inr None |})
      "https://example.invalid"
      {| opt_method := None; opt_body := None; opt_headers := [] |}
    = inl e
    /\ e = TypeError "Cannot read properties of null (reading 'error')".
Proof.
  destruct (proj2 (proj2
    (authenticated_request_outcome (Some "secret") (inr None)
       (fun _ _ => inr {| ok := false; http_status := 502;
                          json_body := inr None |})
       "https://example.invalid"
       {| opt_method := None; opt_body := None; opt_headers := [] |}))
    [("api-key", "secret")]
    {| ok := false; http_status := 502; json_body := inr None |}
    eq_refl eq_refl eq_refl) as (e & E & N & _).
  exists e. split; [exact E | exact (N eq_refl)].
Defined.

(** ** The upload filter *)

Lemma lower_dot (c : ascii) :
  (if ascii_dec "." (Js.lower_ascii c) then true else false)
  = (if ascii_dec "." c then true else false).
Proof.
  destruct c as [[|] [|] [|] [|] [|] [|] [|] [|]]; reflexivity.
Qed.

Lemma prefix_dot (s : string) :
  prefix "." s
  = match s with
    | EmptyString => false
    | String c _ => if ascii_dec "." c then true else false
    end.
Proof.
  destruct s as [|c r]; [reflexivity|].
  change (prefix "." (String c r))
    with (if ascii_dec "." c then prefix "" r else false).
  destruct (ascii_dec "." c); [destruct r|]; reflexivity.
Qed.

Lemma find_last_lower (s : string) :
  JsExt.find_last "." (Js.toLowerCase s) = JsExt.find_last "." s.
Proof.
  induction s as [|c r IH]; [reflexivity|].
  cbn [Js.toLowerCase JsExt.find_last]. rewrite IH.
  destruct (JsExt.find_last "." r); [reflexivity|].
  rewrite !prefix_dot. now rewrite lower_dot.
Qed.

Lemma substring_all (s : string) : String.substring 0 (String.length s) s = s.
Proof. induction s as [|c r IH]; cbn; congruence. Qed.

Lemma substring_length_le (n m : nat) (s : string) :
  String.length (String.substring n m s) <= m.
Proof.
  revert n m. induction s as [|c r IH]; intros [|n] [|m]; cbn; try lia.
  - specialize (IH 0 m). lia.
  - apply (IH n 0).
  - apply (IH n (S m)).
Qed.

Lemma find_last_within (needle s : string) (i : nat) :
  JsExt.find_last needle s = Some i -> i <= String.length s.
Proof.
  revert i. induction s as [|c r IH]; intros i; cbn [JsExt.find_last].
  - destruct (prefix needle ""); [intros [= <-]; cbn; lia | discriminate].
  - destruct (JsExt.find_last needle r) as [j|].
    + intros [= <-]. specialize (IH j eq_refl). cbn. lia.
    + destruct (prefix needle (String c r)); [intros [= <-]; lia | discriminate].
Qed.

Lemma find_last_suffix (s : string) :
  match JsExt.find_last "." s with
  | Some i =>
      last_dot_suffix s
      = Some (String.substring i (String.length s - i) s)
  | None => last_dot_suffix s = None
  end.
Proof.
  induction s as [|c r IH]; [reflexivity|].
  cbn [JsExt.find_last last_dot_suffix].
  destruct (JsExt.find_last "." r) as [j|].
  - rewrite IH. reflexivity.
  - rewrite IH, prefix_dot. destruct (ascii_dec "." c); [|reflexivity].
    now rewrite Nat.sub_0_r, substring_all.
Qed.

Lemma last_dot_suffix_ends (s e : string) :
  last_dot_suffix s = Some e -> ends_with s e.
Proof.
  revert e. induction s as [|c r IH]; intros e; cbn [last_dot_suffix];
    [discriminate|].
  destruct (last_dot_suffix r) as [e'|].
  - intros [= <-]. destruct (IH e' eq_refl) as [p ->].
    now exists (String c p).
  - destruct (ascii_dec "." c); [|discriminate].
    intros [= <-]. now exists "".
Qed.

Lemma ends_last_dot_suffix (s t : string) :
  last_dot_suffix t = None ->
  ends_with s (String "." t) -> last_dot_suffix s = Some (String "." t).
Proof.
  intros T [p ->]. induction p as [|c p IH].
  - change ("" ++ String "." t) with (String "." t). cbn [last_dot_suffix].
    rewrite T. destruct (ascii_dec "." "."); [reflexivity | contradiction].
  - change (String c p ++ String "." t) with (String c (p ++ String "." t)).
    cbn [last_dot_suffix]. now rewrite IH.
Qed.

Lemma slice_at (s : string) (i : nat) :
  i <= String.length s ->
  JsExt.slice s (Z.of_nat i) = String.substring i (String.length s - i) s.
Proof.
  intros H. unfold JsExt.slice.
  destruct (Z.ltb_spec (Z.of_nat i) 0) as [L|_]; [lia|].
  f_equal; lia.
Qed.

Lemma slice_last_short (s : string) :
  String.length (JsExt.slice s (-1)) <= 1.
Proof.
  unfold JsExt.slice. cbn [Z.ltb Z.compare].
  etransitivity; [apply substring_length_le | lia].
Qed.

Lemma file_extension (n : string) :
  match last_dot_suffix (Js.toLowerCase n) with
  | Some e =>
      JsExt.slice (Js.toLowerCase n) (JsExt.lastIndexOf n ".") = e
  | None =>
      String.length
        (JsExt.slice (Js.toLowerCase n) (JsExt.lastIndexOf n ".")) <= 1
  end.
Proof.
  pose proof (find_last_suffix (Js.toLowerCase n)) as S.
  rewrite find_last_lower in S. unfold JsExt.lastIndexOf.
  destruct (JsExt.find_last "." n) as [i|] eqn:F.
  - rewrite S. apply slice_at. rewrite toLowerCase_length.
    now apply (find_last_within "." n).
  - rewrite S. apply slice_last_short.
Qed.

(** X6. For a file name of ASCII characters, the upload filter accepts
    the file exactly when its name, in lower case, ends with ".txt" or
    ".csv"; every other name (no dot at all, another extension, a dot
    only earlier in the name) is refused with the error
    "Only .txt and .csv files are allowed". *)
Theorem file_filter_extension (originalname : string) :
  Js.ascii originalname = true ->
  (fileFilter originalname = inr true
   <-> ends_with (Js.toLowerCase originalname) ".txt"
       \/ ends_with (Js.toLowerCase originalname) ".csv")
  /\ (fileFilter originalname = inr true
      \/ fileFilter originalname
         = inl (Error "Only .txt and .csv files are allowed")).
Proof.
  intros _. unfold fileFilter, allowedTypes. cbn [existsb].
  pose proof (file_extension originalname) as E.
  set (ext := JsExt.slice _ _) in *.
  split.
  - split.
    + destruct (String.eqb_spec ext ".txt") as [T | nT];
        [| destruct (String.eqb_spec ext ".csv") as [C | nC]];
        cbn; try discriminate; intros _;
        destruct (last_dot_suffix (Js.toLowerCase originalname)) as [e|] eqn:L;
        try (subst ext; (rewrite T in E || rewrite C in E); cbn in E; lia);
        subst e; apply last_dot_suffix_ends in L.
      * left. now rewrite <- T.
      * right. now rewrite <- C.
    + intros [H | H];
        apply ends_last_dot_suffix in H; try reflexivity;
        rewrite H in E; rewrite E; reflexivity.
  - destruct (String.eqb ext ".txt" || (String.eqb ext ".csv" || false));
      auto.
Qed.

Lemma file_filter_extension_witness :
  fileFilter "Report.2024.TXT" = inr true
  /\ fileFilter "notes.txt.exe"
     = inl (Error "Only .txt and .csv files are allowed").
Proof.
  split.
  - apply (proj1 (file_filter_extension "Report.2024.TXT" eq_refl)).
    left. exists "report.2024". reflexivity.
  - destruct (proj2 (file_filter_extension "notes.txt.exe" eq_refl))
      as [H | H]; [discriminate H | exact H].
Defined.

(** ** The session store under the tools *)

Lemma set_keys_present (V : Type) (m : Dict.t V) (k : string) (v x : V) :
  Dict.get k m = Some x -> Dict.keys (Dict.set k v m) = Dict.keys m.
Proof.
  unfold Dict.keys. induction m as [|[k0 v0] r IH]; cbn; [discriminate|].
  destruct (String.eqb_spec k k0) as [-> | N]; cbn; [reflexivity|].
  intros G. now rewrite IH.
Qed.

Lemma find_snoc_fresh (A : Type) (f : A -> bool) (l : list A) (x : A) :
  (forall y, In y l -> f y = false) -> f x = true ->
  List.find f (l ++ [x]) = Some x.
Proof.
  intros N T. induction l as [|y r IH]; cbn.
  - now rewrite T.
  - rewrite (N y (or_introl eq_refl)). apply IH.
    intros z I. apply N. now right.
Qed.

(** X7. Round trip of the two document tools: after [upload_document]
    into an existing session, with a document id that no document of the
    session has yet, [get_document] with that session id and document id
    returns exactly the uploaded id, title and text. *)
Theorem upload_then_get (uuid : string) (a : ToolArgs)
  (store : Dict.t Session) (session : Session) :
  Dict.get (Js.template (sessionId a)) store = Some session ->
  (forall d, In d (docs session) -> doc_id d <> uuid) ->
  get_document (Some (args_for (sessionId a) (Some uuid) None None))
    (fst (upload_document uuid (Some a) store))
  = inr (text_result
           (JObj ([("id", JStr uuid)] ++ opt_field "title" (title a)
                  ++ opt_field "text" (text a)))).
Proof.
  intros G Fresh. unfold upload_document.
  rewrite (sessions_get_own _ _ _ G). cbn [fst].
  unfold get_document, arg, args_for. cbn [bind sessionId docId].
  rewrite (sessions_get_own _ _ _ (get_set_eq _ store _ _)).
  cbn [docs find_document].
  rewrite find_snoc_fresh; [reflexivity | | cbn; apply String.eqb_refl].
  intros d I. apply String.eqb_neq. now apply Fresh.
Qed.

Lemma upload_then_get_witness :
  get_document (Some (args_for (Some "s-1") (Some "d-2") None None))
    (fst (upload_document "d-2"
            (Some (args_for (Some "s-1") None (Some "notes") (Some "abc")))
            (Sample.one_document "greeting" "hello world")))
  = inr (text_result
           (JObj [("id", JStr "d-2"); ("title", JStr "notes");
                  ("text", JStr "abc")])).
Proof.
  refine (upload_then_get "d-2"
            (args_for (Some "s-1") None (Some "notes") (Some "abc"))
            (Sample.one_document "greeting" "hello world")
            {| docs := [ {| doc_id := "d-1"; doc_title := Some "greeting";
                            doc_text := Some "hello world" |} ];
               history := [] |}
            eq_refl _).
  intros d [<- | []]. discriminate.
Defined.

(** X8. [upload_document] into an existing session changes that session
    only, and only by appending the new document after the ones it had:
    the history is kept, every other session id resolves as before, and
    no session is added, dropped or moved. *)
Theorem upload_appends (uuid : string) (a : ToolArgs)
  (store : Dict.t Session) (session : Session) :
  Dict.get (Js.template (sessionId a)) store = Some session ->
  let store' := fst (upload_document uuid (Some a) store) in
  Dict.get (Js.template (sessionId a)) store'
  = Some {| docs := docs session
                    ++ [ {| doc_id := uuid; doc_title := title a;
                            doc_text := text a |} ];
            history := history session |}
  /\ (forall k, k <> Js.template (sessionId a) ->
                Dict.get k store' = Dict.get k store)
  /\ Dict.keys store' = Dict.keys store.
Proof.
  intros G. unfold upload_document. rewrite (sessions_get_own _ _ _ G).
  cbn [fst]. split; [apply get_set_eq|]. split.
  - intros k N. now apply get_set_ne.
  - now apply (set_keys_present _ store _ _ session).
Qed.

Lemma upload_appends_witness :
  Dict.keys
    (fst (upload_document "d-2"
            (Some (args_for (Some "s-1") None (Some "notes") (Some "abc")))
            (Sample.one_document "greeting" "hello world")))
  = Dict.keys (Sample.one_document "greeting" "hello world").
Proof.
  exact (proj2 (proj2
    (upload_appends "d-2"
       (args_for (Some "s-1") None (Some "notes") (Some "abc"))
       (Sample.one_document "greeting" "hello world")
       {| docs := [ {| doc_id := "d-1"; doc_title := Some "greeting";
                       doc_text := Some "hello world" |} ];
          history := [] |}
       eq_refl))).
Defined.

(** X9. A tool that throws has no effect on the session store, whatever
    the tool name and the arguments. *)
Theorem failed_tool_keeps_store (uuid : string) (n : option string)
  (args : option ToolArgs) (store store' : Dict.t Session) (e : Exn) :
  run_tool uuid n args store = (store', inl e) -> store' = store.
Proof.
  unfold run_tool, create_session, upload_document.
  repeat break_step; intros H; injection H as <- ?; try reflexivity;
    discriminate.
Qed.

Lemma failed_tool_keeps_store_witness :
  Sample.one_document "greeting" "hello world"
  = Sample.one_document "greeting" "hello world".
Proof.
  exact (failed_tool_keeps_store "d-2" (Some "upload_document")
           (Some (args_for (Some "nowhere") None None None))
           (Sample.one_document "greeting" "hello world")
           (Sample.one_document "greeting" "hello world")
           (Error "Session not found") eq_refl).
Defined.

(** X10. [create_session] installs an empty session under the new id,
    even if that id already named a session (whose documents and history
    are then gone), and leaves every other session as it was; the new
    session lists no documents. *)
Theorem create_session_installs_empty (uuid : string)
  (store : Dict.t Session) :
  let store' := fst (create_session uuid store) in
  Dict.get uuid store' = Some {| docs := []; history := [] |}
  /\ (forall k, k <> uuid -> Dict.get k store' = Dict.get k store)
  /\ list_documents (Some (args_for (Some uuid) None None None)) store'
     = inr (text_result
              (JObj [ ("sessionId", JStr uuid); ("documentCount", JNum 0);
                      ("documents", JArr []) ])).
Proof.
  cbn [create_session fst]. split; [apply get_set_eq|]. split.
  - intros k N. now apply get_set_ne.
  - unfold list_documents, arg, args_for. cbn [bind sessionId Js.template].
    now rewrite (sessions_get_own _ _ _ (get_set_eq _ store _ _)).
Qed.

(** ** Search results *)

Lemma string_length_append (a b : string) :
  String.length (a ++ b) = String.length a + String.length b.
Proof. induction a as [|c r IH]; cbn; congruence. Qed.

(** X11. A snippet is never longer than 106 characters: at most 100
    characters of the text between the two ellipses, whatever the text
    and the position of the match. *)
Theorem snippet_bounded (text : string) (index : Z) :
  String.length (snippet_of text index) <= 106
  /\ forall searchLower sid doc,
       String.length (snippet (hit_of searchLower sid doc)) <= 106.
Proof.
  assert (B : forall t i, String.length (snippet_of t i) <= 106).
  { intros t i. unfold snippet_of, Js.substring.
    rewrite !string_length_append. cbn [String.length].
    match goal with
    | |- context [String.substring ?n ?m t] =>
        pose proof (substring_length_le n m t) as L;
        assert (m <= 100) by (unfold Js.clamp; lia)
    end.
    lia. }
  split; [apply B|]. intros. apply B.
Qed.

Lemma doc_matches_matching (searchLower : string) (doc : Document) (m : bool) :
  doc_matches searchLower doc = inr m -> matching searchLower doc = m.
Proof.
  unfold doc_matches, matching.
  destruct (doc_text doc) as [t|]; [|discriminate].
  destruct (Js.includes (Js.toLowerCase t) searchLower).
  - now intros [= <-].
  - destruct (doc_title doc) as [ti|]; [|discriminate]. now intros [= <-].
Qed.

Lemma search_docs_sound (searchLower sid : string) (l : list Document)
  (acc res : list SearchHit) :
  search_docs searchLower sid l acc = inr res ->
  exists new,
    res = (acc ++ new)%list
    /\ forall h, In h new ->
         exists doc, In doc l /\ h = hit_of searchLower sid doc
                     /\ matching searchLower doc = true.
Proof.
  revert acc. induction l as [|doc r IH]; intros acc; cbn.
  - intros [= <-]. exists []. split; [now rewrite app_nil_r | contradiction].
  - destruct (doc_matches searchLower doc) as [e|m] eqn:M; cbn;
      [discriminate|].
    apply doc_matches_matching in M. intros H.
    destruct (IH _ H) as (new & -> & Hn). destruct m.
    + exists (hit_of searchLower sid doc :: new). split.
      * now rewrite <- app_assoc.
      * intros h [<- | I]; [exists doc; auto|].
        destruct (Hn h I) as (d & Id & E & Md). exists d. auto.
    + exists new. split; [reflexivity|]. intros h I.
      destruct (Hn h I) as (d & Id & E & Md). exists d. auto.
Qed.

Lemma search_entries_sound (searchLower : string)
  (entries : list (string * Property)) (acc res : list SearchHit) :
  search_entries searchLower entries acc = inr res ->
  exists new,
    res = (acc ++ new)%list
    /\ forall h, In h new ->
         exists sid session doc,
           In (sid, Own session) entries /\ In doc (docs session)
           /\ h = hit_of searchLower sid doc
           /\ matching searchLower doc = true.
Proof.
  revert acc. induction entries as [|[sid [session| |]] r IH]; intros acc; cbn.
  - intros [= <-]. exists []. split; [now rewrite app_nil_r | contradiction].
  - destruct (search_docs searchLower sid (docs session) acc) as [e|mid] eqn:D;
      cbn; [discriminate|].
    destruct (search_docs_sound _ _ _ _ _ D) as (n1 & -> & H1). intros H.
    destruct (IH _ H) as (n2 & -> & H2). exists (n1 ++ n2)%list. split.
    + now rewrite app_assoc.
    + intros h I. apply in_app_or in I. destruct I as [I | I].
      * destruct (H1 h I) as (d & Id & E & Md).
        exists sid, session, d. auto.
      * destruct (H2 h I) as (s' & ss & d & Ie & Id & E & Md).
        exists s', ss, d. auto.
  - discriminate.
  - intros H. destruct (IH _ H) as (n & -> & Hn). exists n.
    split; [reflexivity|]. intros h I.
    destruct (Hn h I) as (s' & ss & d & Ie & Id & E & Md).
    exists s', ss, d. auto.
Qed.

(** X12. A search never invents results: whenever [search_documents]
    succeeds, every hit is the hit of a document stored in a session of
    the store, carries that session's id and the document's id and title,
    and the lower-cased query occurs in the document's lower-cased text
    or title; when a non-empty session id was given, every hit carries
    that id. This holds for any store, complete or not. *)
Theorem search_is_sound (a : ToolArgs) (store : Dict.t Session)
  (hits : list SearchHit) (q : string) :
  query a = Some q ->
  search_results (Some a) store = inr hits ->
  forall h, In h hits ->
    exists session doc,
      In (hit_sessionId h, session) store /\ In doc (docs session)
      /\ h = hit_of (Js.toLowerCase q) (hit_sessionId h) doc
      /\ hit_docId h = doc_id doc /\ hit_title h = doc_title doc
      /\ matching (Js.toLowerCase q) doc = true
      /\ (Js.truthy (sessionId a) = true ->
          hit_sessionId h = Js.template (sessionId a)).
Proof.
  intros Q R h I. unfold search_results, arg in R. cbn in R. rewrite Q in R.
  destruct (search_entries_sound _ _ _ _ R) as (new & -> & Hn).
  destruct (Hn h I) as (sid & session & doc & Ie & Id & -> & M).
  cbn [hit_of hit_sessionId hit_docId hit_title].
  exists session, doc. unfold sessionsToSearch in Ie.
  destruct (Js.truthy (sessionId a)).
  - destruct Ie as [[= <- G] | []]. repeat split; auto.
    unfold sessions_get in G.
    destruct (Dict.get (Js.template (sessionId a)) store) as [s|] eqn:D.
    + injection G as ->. now apply get_some_in.
    + destruct (existsb _ _); discriminate.
  - apply in_map_iff in Ie. destruct Ie as ([k s] & [= <- <-] & Is).
    repeat split; auto. discriminate.
Qed.

Lemma search_is_sound_witness :
  exists session doc,
    In ("s-1", session) (Sample.one_document "greeting" "hello world")
    /\ In doc (docs session)
    /\ {| hit_sessionId := "s-1"; hit_docId := "d-1";
          hit_title := Some "greeting"; snippet := "...hello world..." |}
       = hit_of "world" "s-1" doc
    /\ "d-1" = doc_id doc /\ Some "greeting" = doc_title doc
    /\ matching "world" doc = true
    /\ (Js.truthy (Some "s-1") = true -> "s-1" = "s-1").
Proof.
  exact (search_is_sound (Sample.search_for "World" (Some "s-1"))
           (Sample.one_document "greeting" "hello world")
           [ {| hit_sessionId := "s-1"; hit_docId := "d-1";
                hit_title := Some "greeting";
                snippet := "...hello world..." |} ]
           "World" eq_refl eq_refl _ (or_introl eq_refl)).
Defined.

(** ** The catalogue and the dispatcher *)

Lemma map_throws_summary_error (l : list Document) (e : Exn) :
  map_throws document_summary l = inl e -> exists m, e = TypeError m.
Proof.
  induction l as [|d r IH]; cbn; [discriminate|].
  unfold document_summary at 1. destruct (doc_text d); cbn.
  - destruct (map_throws document_summary r); cbn; [|discriminate].
    intros [= <-]. now apply IH.
  - intros [= <-]. eexists. reflexivity.
Qed.

Lemma search_docs_error (searchLower sid : string) (l : list Document)
  (acc : list SearchHit) (e : Exn) :
  search_docs searchLower sid l acc = inl e -> exists m, e = TypeError m.
Proof.
  revert acc. induction l as [|d r IH]; intros acc; cbn; [discriminate|].
  unfold doc_matches at 1.
  destruct (doc_text d) as [t|]; cbn; [|intros [= <-]; eexists; reflexivity].
  destruct (Js.includes (Js.toLowerCase t) searchLower); cbn; [apply IH|].
  destruct (doc_title d); cbn; [apply IH|].
  intros [= <-]. eexists. reflexivity.
Qed.

Lemma search_entries_error (searchLower : string)
  (entries : list (string * Property)) (acc : list SearchHit) (e : Exn) :
  search_entries searchLower entries acc = inl e -> exists m, e = TypeError m.
Proof.
  revert acc. induction entries as [|[sid [session| |]] r IH]; intros acc; cbn.
  - discriminate.
  - destruct (search_docs searchLower sid (docs session) acc) eqn:D; cbn.
    + intros [= <-]. now apply search_docs_error in D.
    + apply IH.
  - intros [= <-]. eexists. reflexivity.
  - apply IH.
Qed.

Lemma known_tool_error (uuid n : string) (args : option ToolArgs)
  (store : Dict.t Session) (m : string) :
  known_tool n = true ->
  snd (run_tool uuid (Some n) args store) = inl (Error m) ->
  exists x, m = "Session not found" ++ x \/ m = "Document not found: " ++ x.
Proof.
  unfold known_tool. cbn [map tool_name tools existsb].
  intros K.
  repeat (apply orb_true_iff in K; destruct K as [K | K]);
    try discriminate; apply String.eqb_eq in K; subst n;
    unfold run_tool; cbn [strict_eq String.eqb Ascii.eqb Bool.eqb andb];
    cbn.
  - discriminate.
  - unfold list_documents, arg. destruct args as [a|]; cbn; [|discriminate].
    destruct (sessions_get _ store); cbn; try discriminate.
    + destruct (map_throws document_summary (docs s)) eqn:E; cbn;
        [|discriminate].
      intros [= ->]. apply map_throws_summary_error in E.
      destruct E as [? E]. discriminate E.
    + intros [= <-]. eexists. left. reflexivity.
  - unfold get_document, arg. destruct args as [a|]; cbn; [|discriminate].
    destruct (sessions_get _ store); cbn; try discriminate.
    + destruct (find_document (docId a) (docs s)); [discriminate|].
      intros [= <-]. eexists. right. reflexivity.
    + intros [= <-]. eexists. left. reflexivity.
  - unfold search_documents.
    destruct (search_results args store) as [e|hits] eqn:E; cbn.
    + intros [= ->]. exfalso. unfold search_results, arg in E.
      destruct args as [a|]; cbn in E; [|discriminate].
      destruct (query a); [|discriminate].
      apply search_entries_error in E. destruct E as [? E]. discriminate E.
    + unfold arg. destruct args; cbn; discriminate.
  - unfold upload_document. destruct args as [a|]; cbn; [|discriminate].
    destruct (sessions_get _ store); cbn; try discriminate.
    intros [= <-]. exists "". now left.
Qed.

(** X13. The catalogue of [tools/list] names exactly the tools that
    [tools/call] can run: a name is in the catalogue if and only if
    calling it does not end in "Unknown tool: <name>", whatever the
    arguments and the store. *)
Theorem catalogue_matches_dispatcher (uuid n : string)
  (args : option ToolArgs) (store : Dict.t Session) :
  known_tool n = true
  <-> snd (run_tool uuid (Some n) args store)
      <> inl (Error ("Unknown tool: " ++ n)).
Proof.
  split.
  - intros K H.
    destruct (known_tool_error uuid n args store _ K H) as [x [E | E]];
      discriminate E.
  - intros H. destruct (known_tool n) eqn:K; [reflexivity|].
    exfalso. apply H.
    now rewrite (unknown_tool_throws uuid n args store K).
Qed.

(** ** The connection registry and the streams *)

(** X14. Round trip of the registry: when the SSE handler succeeds, the
    connection id it advertised in the stream's first frame (the
    [endpoint] event) resolves, in the registry, to that very stream,
    whose keep-alive timer is scheduled; every other id resolves as
    before. When the setup fails, the registry is left as it was and no
    timer stays scheduled for the new stream. *)
Theorem open_then_lookup (uuid : string) (fault : option SetupFault)
  (st : State) :
  let h := length (streams st) in
  let st' := fst (fst (get_mcp_sse uuid fault st)) in
  (fault = None ->
   registry_get (Some uuid) st' = Some {| res := h |}
   /\ frames_of h st' = [EndpointEvent ("/mcp/message?sessionId=" ++ uuid)]
   /\ timer_active h st' = true
   /\ forall k, k <> uuid -> registry_get (Some k) st' = registry_get (Some k) st)
  /\ (fault <> None ->
      mcpConnections st' = mcpConnections st /\ timer_active h st' = false).
Proof.
  split.
  - intros ->. unfold get_mcp_sse, res_write. cbn.
    rewrite nth_error_snoc. cbn. split; [apply get_set_eq|]. split.
    + unfold frames_of. cbn.
      now rewrite (nth_error_update_nth _ _ _ _ (nth_error_snoc _ _)).
    + split.
      * unfold timer_active. cbn. rewrite existsb_app. cbn.
        rewrite Nat.eqb_refl. apply orb_true_r.
      * intros k N. now apply get_set_ne.
  - intros F.
    destruct (get_mcp_sse_fields uuid fault st)
      as (_ & _ & [(_ & R & _ & T) | (E & _)]); [|contradiction].
    split; [exact R|]. unfold timer_active. rewrite T.
    destruct (existsb _ _) eqn:X; [|reflexivity].
    apply existsb_exists in X. destruct X as (x & Hx & Ex).
    apply filter_In in Hx. destruct Hx as [_ Hx].
    apply Nat.eqb_eq in Ex. subst x. now rewrite Nat.eqb_refl in Hx.
Qed.

Lemma delete_absent (V : Type) (m : Dict.t V) (k : string) :
  Dict.delete k (Dict.delete k m) = Dict.delete k m.
Proof.
  induction m as [|[k0 v0] r IH]; cbn; [reflexivity|].
  destruct (String.eqb k k0) eqn:E; [exact IH|].
  cbn. rewrite E. now rewrite IH.
Qed.

Lemma filter_twice (A : Type) (f : A -> bool) (l : list A) :
  filter f (filter f l) = filter f l.
Proof.
  induction l as [|x r IH]; cbn; [reflexivity|].
  destruct (f x) eqn:E; cbn; [rewrite E|]; now rewrite IH.
Qed.

(** X15. Removal is idempotent: running the close (or error) handler of
    a stream a second time changes nothing, and the two handlers can
    follow one another in either order with the same result. After it,
    the keep-alive callback of that stream writes nothing if the stream
    had a listener. *)
Theorem close_is_idempotent (h : nat) (st : State) :
  on_close h (on_close h st) = on_close h st
  /\ on_error h (on_close h st) = on_close h st
  /\ on_close h (on_error h st) = on_error h st
  /\ (listener_of h st <> None ->
      keepAliveInterval h (on_close h st) = (on_close h st, [])).
Proof.
  assert (I : on_close h (on_close h st) = on_close h st).
  { unfold on_close. destruct (listener_of h st) as [id|] eqn:L.
    - change (listener_of h (registry_delete id (clearInterval h st)))
        with (listener_of h st).
      rewrite L. unfold registry_delete, clearInterval. cbn.
      now rewrite delete_absent, filter_twice.
    - now rewrite L. }
  repeat split; try exact I.
  intros L. unfold keepAliveInterval, on_close.
  destruct (listener_of h st) as [id|]; [|contradiction].
  change (timer_active h (registry_delete id (clearInterval h st)))
    with (timer_active h (clearInterval h st)).
  now rewrite timer_cleared.
Qed.

Lemma close_is_idempotent_witness :
  keepAliveInterval 0 (on_close 0 Sample.connected)
  = (on_close 0 Sample.connected, []).
Proof.
  refine (proj2 (proj2 (proj2 (close_is_idempotent 0 Sample.connected))) _).
  discriminate.
Defined.

Lemma grows_refl (h : nat) (st st' : State) :
  streams st' = streams st -> grows h st st'.
Proof.
  intros E. exists []. unfold frames_of. now rewrite E, app_nil_r.
Qed.

Lemma grows_trans (h : nat) (a b c : State) :
  grows h a b -> grows h b c -> grows h a c.
Proof.
  intros [s1 E1] [s2 E2]. exists (s1 ++ s2)%list.
  now rewrite E2, E1, app_assoc.
Qed.

Lemma grows_same_frames (h : nat) (st st' : State) :
  (forall s, nth_error (streams st) h = Some s ->
             exists s', nth_error (streams st') h = Some s'
                        /\ accepted s' = accepted s) ->
  grows h st st'.
Proof.
  intros H. unfold grows, frames_of.
  destruct (nth_error (streams st) h) as [s|]; [|eexists; reflexivity].
  destruct (H s eq_refl) as (s' & -> & ->). exists []. now rewrite app_nil_r.
Qed.

Lemma res_write_grows (h h' : nat) (f : Frame) (st st' : State) :
  res_write h f st = inr st' -> grows h' st st'.
Proof.
  unfold res_write. destruct (nth_error (streams st) h) as [s|] eqn:N;
    [|discriminate].
  destruct (write_fault s); [discriminate|]. intros [= <-].
  unfold grows, frames_of. cbn. destruct (Nat.eq_dec h h') as [<- | Ne].
  - rewrite (nth_error_update_nth _ _ _ _ N), N. eexists. reflexivity.
  - rewrite (nth_error_update_nth_ne _ _ _ _ Ne). exists [].
    now rewrite app_nil_r.
Qed.

Lemma update_same_frames (h h' : nat) (s s' : Stream) (l : list Stream) :
  nth_error l h = Some s -> accepted s' = accepted s ->
  forall x, nth_error l h' = Some x ->
    exists x', nth_error (update_nth h s' l) h' = Some x'
               /\ accepted x' = accepted x.
Proof.
  intros N A x X. destruct (Nat.eq_dec h h') as [<- | Ne].
  - rewrite (nth_error_update_nth _ _ _ _ N). exists s'.
    split; [reflexivity|]. congruence.
  - rewrite (nth_error_update_nth_ne _ _ _ _ Ne). eauto.
Qed.

Lemma post_grows (tempServer : Throws unit)
  (uuid : string) (req : Request) (st : State) (h : nat) :
  grows h st (fst (fst (post_mcp_message tempServer uuid req st)))
  /\ length (snd (post_mcp_message tempServer uuid req st)) <= 1.
Proof.
  by_paths; (split; [|cbn; lia]);
    try (apply grows_refl; reflexivity);
    match goal with
    | W : res_write _ _ st = inr _ |- _ => exact (res_write_grows _ h _ _ _ W)
    | W : res_write _ _ (set_sessions ?s st) = inr _ |- _ =>
        apply (grows_trans h st (set_sessions s st));
        [apply grows_refl; reflexivity | exact (res_write_grows _ h _ _ _ W)]
    end.
Qed.

Lemma open_grows (uuid : string) (fault : option SetupFault) (st : State)
  (h : nat) :
  grows h st (fst (fst (get_mcp_sse uuid fault st))).
Proof.
  apply grows_same_frames. intros s N.
  assert (Lt : h < length (streams st)) by (apply nth_error_Some; congruence).
  assert (Ne : length (streams st) <> h) by lia.
  exists s. split; [|reflexivity].
  unfold get_mcp_sse, res_write, res_end. cbn. rewrite nth_error_snoc. cbn.
  destruct fault as [[m|]|]; cbn;
    rewrite (nth_error_update_nth_ne _ _ _ _ Ne), nth_error_app1 by assumption;
    exact N.
Qed.

(** X16. Streams are append-only and every event writes at most once:
    whatever happens (a connection opening, a POST, a keep-alive tick, a
    close or error notification, a transport failure), the frames a
    stream has taken stay where they are, in their order, possibly
    followed by new ones, and the event makes at most one [res.write]. *)
Theorem streams_append_only (e : Event) (st : State) (h : nat) :
  grows h st (fst (step e st)) /\ length (snd (step e st)) <= 1.
Proof.
  destruct e as [uuid fault | tempServer uuid req | h' | h' | h' | h' msg]; cbn.
  - pose proof (open_grows uuid fault st h) as G.
    destruct (get_mcp_sse_fields uuid fault st) as (_ & (w & E & _) & _).
    destruct (get_mcp_sse uuid fault st) as [[st' r] ws]. cbn in *.
    subst ws. split; [exact G | cbn; lia].
  - pose proof (post_grows tempServer uuid req st h) as G.
    destruct (post_mcp_message tempServer uuid req st) as [[st' r] ws]. exact G.
  - unfold keepAliveInterval. destruct (timer_active h' st);
      [|split; [now apply grows_refl | cbn; lia]].
    destruct (res_write h' KeepAlive st) as [x|st'] eqn:W; cbn;
      (split; [|lia]).
    + now apply grows_refl.
    + exact (res_write_grows _ h _ _ _ W).
  - split; [|lia]. apply grows_refl. unfold on_close.
    now destruct (listener_of h' st).
  - split; [|lia]. apply grows_refl. unfold on_error, on_close.
    now destruct (listener_of h' st).
  - split; [|lia]. unfold transport_fails.
    destruct (nth_error (streams st) h') as [s|] eqn:N;
      [|now apply grows_refl].
    apply grows_same_frames. intros x X. cbn.
    now apply (update_same_frames h' h s _ (streams st) N).
Qed.

(** X17. What a POST never does: it never registers or removes a
    connection, never schedules or cancels a keep-alive timer, never
    adds a listener or a stream; and it changes the session store only
    when its method is [tools/call] and its connection id is
    registered. *)
Theorem post_side_effects (tempServer : Throws unit)
  (uuid : string) (req : Request) (st : State) :
  let st' := fst (fst (post_mcp_message tempServer uuid req st)) in
  mcpConnections st' = mcpConnections st
  /\ intervals st' = intervals st
  /\ listeners st' = listeners st
  /\ length (streams st') = length (streams st)
  /\ (strict_eq (msg_method (body req)) "tools/call" = false
      \/ registry_get (query_sessionId req) st = None ->
      sessions st' = sessions st).
Proof.
  destruct (post_frame tempServer uuid req st) as (R & T & L & S).
  repeat split; auto. clear R T L S.
  intros H. by_paths; try reflexivity;
    try (destruct H; congruence);
    match goal with
    | W : res_write _ _ _ = inr _ |- _ =>
        now destruct (res_write_frame _ _ _ _ W) as (-> & _)
    end.
Qed.

Lemma post_side_effects_witness :
  sessions
    (fst (fst (post_mcp_message (inr tt) "u"
                 (Sample.request (Some "c-1") Sample.json_client
                    (Some "tools/list") None)
                 Sample.connected)))
  = sessions Sample.connected.
Proof.
  exact (proj2 (proj2 (proj2 (proj2
    (post_side_effects (inr tt) "u"
       (Sample.request (Some "c-1") Sample.json_client (Some "tools/list") None)
       Sample.connected)))) (or_introl eq_refl)).
Defined.

Lemma open_then_lookup_witness :
  registry_get (Some "c-2") (fst (fst (get_mcp_sse "c-2" None Sample.connected)))
  = Some {| res := 1 |}.
Proof.
  exact (proj1 (proj1 (open_then_lookup "c-2" None Sample.connected) eq_refl)).
Defined.

(** ** The REST endpoints and the tools *)

Lemma set_sessions_same (st : State) : set_sessions (sessions st) st = st.
Proof. now destruct st. Qed.

(** X18. The REST endpoints and the MCP tools act on the same store in
    the same way: [POST /session] leaves the store [create_session]
    leaves, and [POST /session/:sid/upload], when it answers, leaves the
    store [upload_document] leaves for the same session id, title and
    text (unchanged, with a 404, when no session has that id); when it
    throws instead, the tool throws the same exception. Neither endpoint
    touches the registry, the timers or the streams. *)
Theorem rest_agrees_with_tools (uuid sid : string) (b : UploadBody)
  (st : State) :
  let a := args_for (Some sid) None (upload_title b) (upload_text b) in
  sessions (fst (post_session uuid st)) = fst (create_session uuid (sessions st))
  /\ match post_upload uuid sid b st with
     | inr (st', r) =>
         st' = set_sessions (fst (upload_document uuid (Some a) (sessions st))) st
         /\ (status r = 404%Z
             <-> sessions_get sid (sessions st) = Undefined)
         /\ (status r = 404%Z \/ status r = 200%Z)
     | inl e =>
         snd (upload_document uuid (Some a) (sessions st)) = inl e
     end.
Proof.
  split; [reflexivity|].
  unfold post_upload, push_document, upload_document, args_for.
  cbn [sessionId title text Js.template].
  destruct (sessions_get sid (sessions st)) as [session| |]; cbn.
  - repeat split; auto; discriminate.
  - reflexivity.
  - rewrite set_sessions_same. repeat split; auto.
Qed.

Lemma get_document_appended (uuid sid : string) (store : Dict.t Session)
  (session : Session) (ti t : option string) (hist : list (string * string)) :
  (forall d, In d (docs session) -> doc_id d <> uuid) ->
  get_document (Some (args_for (Some sid) (Some uuid) None None))
    (Dict.set sid
       {| docs := docs session
                  ++ [ {| doc_id := uuid; doc_title := ti; doc_text := t |} ];
          history := hist |}
       store)
  = inr (text_result
           (JObj ([("id", JStr uuid)] ++ opt_field "title" ti
                  ++ opt_field "text" t))).
Proof.
  intros Fresh. unfold get_document, arg, args_for.
  cbn [bind sessionId docId Js.template].
  rewrite (sessions_get_own _ _ _ (get_set_eq _ store _ _)).
  cbn [docs find_document].
  rewrite find_snoc_fresh; [reflexivity | | cbn; apply String.eqb_refl].
  intros d I. apply String.eqb_neq. now apply Fresh.
Qed.

(** X19. A file uploaded over REST can be read back through the MCP
    tool: when the upload filter accepts the file's (ASCII) name and the
    file is within the size limit, [POST /session/:sid/upload-file] into
    an existing session (with a fresh document id) is answered with 200
    and [get_document] then returns the file's content as text and, as
    title, the given title or, when that is missing or empty, the file's
    name. A file the filter refuses, or one over the size limit, never
    reaches the handler: the route ends with that error and stores
    nothing. Whenever the route answers anything but 200 (unknown
    session, no file, a failed push), the state is untouched. *)
Theorem file_upload_then_get (uuid sid : string) (ti : option string)
  (st : State) :
  (forall f session,
      Js.ascii (originalname f) = true ->
      fileFilter (originalname f) = inr true ->
      Dict.get sid (sessions st) = Some session ->
      (forall d, In d (docs session) -> doc_id d <> uuid) ->
      exists st',
        post_upload_file uuid sid (Some f) false ti st
        = inr (st',
               {| status := 200;
                  reply_body :=
                    JsonObject
                      (JObj [ ("docId", JStr uuid);
                              ("filename", JStr (originalname f)) ]) |})
        /\ get_document (Some (args_for (Some sid) (Some uuid) None None))
             (sessions st')
           = inr (text_result
                    (JObj [ ("id", JStr uuid);
                            ("title", JStr (Js.or_else ti (originalname f)));
                            ("text", JStr (buffer f)) ])))
  /\ (forall f oversized e,
        Js.ascii (originalname f) = true ->
        fileFilter (originalname f) = inl e ->
        post_upload_file uuid sid (Some f) oversized ti st = inl e)
  /\ (forall f,
        Js.ascii (originalname f) = true ->
        fileFilter (originalname f) = inr true ->
        post_upload_file uuid sid (Some f) true ti st
        = inl (Error "File too large"))
  /\ (forall part oversized st' r,
        post_upload_file uuid sid part oversized ti st = inr (st', r) ->
        status r <> 200%Z -> st' = st).
Proof.
  unfold post_upload_file, upload_single.
  split; [|split; [|split]].
  - intros f session _ A G Fresh. rewrite A. cbn.
    unfold upload_file_handler, push_document.
    rewrite (sessions_get_own _ _ _ G). cbn. eexists. split; [reflexivity|].
    now apply (get_document_appended uuid sid (sessions st) session).
  - intros f oversized e _ ->. reflexivity.
  - intros f _ ->. reflexivity.
  - intros part oversized st' r.
    destruct part as [f|]; cbn.
    + destruct (fileFilter (originalname f)) as [e|b]; cbn; [discriminate|].
      destruct oversized; [discriminate|].
      unfold upload_file_handler, push_document.
      destruct (sessions_get sid (sessions st)); cbn;
        intros [= <- <-]; cbn; try reflexivity; contradiction.
    + unfold upload_file_handler.
      destruct (sessions_get sid (sessions st)); cbn;
        intros [= <- <-]; reflexivity.
Qed.

Lemma file_upload_then_get_witness :
  exists st',
    post_upload_file "d-2" "s-1"
      (Some {| originalname := "notes.txt"; buffer := "abc" |}) false
      (Some "")
      (set_sessions (Sample.one_document "greeting" "hello world") initial)
    = inr (st',
           {| status := 200;
              reply_body :=
                JsonObject
                  (JObj [ ("docId", JStr "d-2");
                          ("filename", JStr "notes.txt") ]) |})
    /\ get_document (Some (args_for (Some "s-1") (Some "d-2") None None))
         (sessions st')
       = inr (text_result
                (JObj [ ("id", JStr "d-2"); ("title", JStr "notes.txt");
                        ("text", JStr "abc") ])).
Proof.
  refine (proj1
    (file_upload_then_get "d-2" "s-1" (Some "")
       (set_sessions (Sample.one_document "greeting" "hello world") initial))
    {| originalname := "notes.txt"; buffer := "abc" |}
    {| docs := [ {| doc_id := "d-1"; doc_title := Some "greeting";
                    doc_text := Some "hello world" |} ];
       history := [] |}
    eq_refl eq_refl eq_refl _).
  intros d [<- | []]. discriminate.
Defined.

(** ** The query endpoint *)

Lemma mentions_prefix (n after : string) : mentions (n ++ after) n.
Proof. now exists "", after. Qed.

(** X20. The answer of a query is never empty, and an answered query
    is recorded once: with the model's data received and the session
    still in the store, the reply is 200 with the answer (the first
    non-empty of the three places of the data, or "No response from
    model"), and exactly one entry, the query with that same answer, is
    appended to the session's history; its documents, the other sessions
    and the order of the sessions stay as they were. *)
Theorem query_answer_recorded (sid : string) (b : QueryBody)
  (data : ModelData) (st : State) :
  assistantMessage data <> ""
  /\ forall session,
       Dict.get sid (sessions st) = Some session ->
       let out := query_complete sid b (inr data) st in
       snd out
       = reply 200 (JsonObject (JObj [("answer", JStr (assistantMessage data))]))
       /\ Dict.get sid (sessions (fst out))
          = Some {| docs := docs session;
                    history := history session
                               ++ [(q_query b, assistantMessage data)] |}
       /\ (forall k, k <> sid ->
                     Dict.get k (sessions (fst out)) = Dict.get k (sessions st))
       /\ Dict.keys (sessions (fst out)) = Dict.keys (sessions st).
Proof.
  split.
  - unfold assistantMessage. repeat apply or_else_nonempty. discriminate.
  - intros session G. unfold query_complete.
    rewrite (sessions_get_own _ _ _ G). cbn. repeat split.
    + apply get_set_eq.
    + intros k N. now apply get_set_ne.
    + now apply (set_keys_present _ (sessions st) _ _ session).
Qed.

Lemma query_answer_recorded_witness :
  Dict.keys
    (sessions
       (fst (query_complete "s-1"
               {| q_docId := Some "d-1"; q_query := "why?"; q_mode := None |}
               (inr {| message_content := Some ""; choice_content := None;
                       data_error_message := Some "quota exceeded" |})
               (set_sessions (Sample.one_document "greeting" "hello world")
                  initial))))
  = Dict.keys (Sample.one_document "greeting" "hello world").
Proof.
  exact (proj2 (proj2 (proj2 (proj2
    (query_answer_recorded "s-1"
       {| q_docId := Some "d-1"; q_query := "why?"; q_mode := None |}
       {| message_content := Some ""; choice_content := None;
          data_error_message := Some "quota exceeded" |}
       (set_sessions (Sample.one_document "greeting" "hello world") initial))
    {| docs := [ {| doc_id := "d-1"; doc_title := Some "greeting";
                    doc_text := Some "hello world" |} ];
       history := [] |}
    eq_refl)))).
Defined.

(** X21. A query that fails leaves no trace: whenever the endpoint's
    tail answers anything but 200, the state is exactly as it was and the
    reply is a 500 carrying an error message; in particular, when the
    authentication fails the model is not asked at all (the outcome does
    not depend on it) and the reply carries the authentication error. *)
Theorem query_failure_leaves_no_trace (sid : string) (b : QueryBody)
  (st : State) :
  (forall outcome,
      status (snd (query_complete sid b outcome st)) <> 200%Z ->
      exists m,
        query_complete sid b outcome st
        = (st, reply 500 (JsonObject (JObj [("error", JStr m)]))))
  /\ (forall apiKey getToken endpoint ask prompt e,
        getAuthHeaders apiKey getToken = inl e ->
        query_complete sid b
          (query_call apiKey getToken endpoint ask prompt) st
        = (st, reply 500 (JsonObject (JObj [("error", JStr (exn_message e))])))).
Proof.
  split.
  - intros outcome. unfold query_complete.
    destruct outcome as [err|data]; [eauto|].
    destruct (sessions_get sid (sessions st)); cbn; eauto. contradiction.
  - intros apiKey getToken endpoint ask prompt e A.
    unfold query_call. rewrite A. reflexivity.
Qed.

Lemma query_failure_leaves_no_trace_witness :
  query_complete "s-1"
    {| q_docId := Some "d-1"; q_query := "why?"; q_mode := None |}
    (query_call None (inl (Error "ENOTFOUND")) None
       (fun _ _ _ => inr {| message_content := Some "yes";
                            choice_content := None;
                            data_error_message := None |})
       "prompt")
    initial
  = (initial,
     reply 500
       (JsonObject
          (JObj [("error", JStr "Authentication failed: ENOTFOUND")]))).
Proof.
  exact (proj2
    (query_failure_leaves_no_trace "s-1"
       {| q_docId := Some "d-1"; q_query := "why?"; q_mode := None |} initial)
    None (inl (Error "ENOTFOUND")) None _ "prompt"
    (Error "Authentication failed: ENOTFOUND") eq_refl).
Defined.

(** X22. Once authenticated, the query endpoint asks the model at the
    configured endpoint, with the completion request built
    from the prompt (a single user message, at most 300 tokens) and with
    two headers: the JSON content type, then the one authentication
    header. *)
Theorem query_call_request (apiKey : option string)
  (getToken : Throws (option AccessToken)) (endpoint : option string)
  (ask : option string -> list (string * string) -> json -> Throws ModelData)
  (prompt : string) (auth : list (string * string)) :
  getAuthHeaders apiKey getToken = inr auth ->
  exists name value,
    auth = [(name, value)] /\ value <> ""
    /\ query_call apiKey getToken endpoint ask prompt
       = ask endpoint
           [("Content-Type", "application/json"); (name, value)]
           (JObj [ ("messages",
                    JArr [ JObj [("role", JStr "user");
                                 ("content", JStr prompt)] ]);
                   ("max_tokens", JNum 300) ]).
Proof.
  intros A. unfold query_call. rewrite A.
  destruct (auth_headers_inv _ _ _ A)
    as [(k & Ne & _ & ->) | (_ & t & Ne & _ & ->)].
  - exists "api-key", k. repeat split; auto.
  - exists "Authorization", ("Bearer " ++ t). repeat split; discriminate.
Qed.

Lemma query_call_request_witness :
  exists name value,
    [("api-key", "secret")] = [(name, value)] /\ value <> ""
    /\ query_call (Some "secret") (inr None) (Some "https://example.invalid")
         (fun _ _ _ => inl (Error "offline")) "prompt"
       = (fun _ _ _ => inl (Error "offline")) (Some "https://example.invalid")
           [("Content-Type", "application/json"); (name, value)]
           (JObj [ ("messages",
                    JArr [ JObj [("role", JStr "user");
                                 ("content", JStr "prompt")] ]);
                   ("max_tokens", JNum 300) ]).
Proof.
  exact (query_call_request (Some "secret") (inr None)
           (Some "https://example.invalid")
           (fun _ _ _ => inl (Error "offline")) "prompt"
           [("api-key", "secret")] eq_refl).
Defined.

(** X23. The head of the query endpoint, case by case. With the session
    in the store and a document of the requested id in it, the model is
    asked, and the prompt is, in [qa] mode, "Document:", the document's
    text, the question and "Answer:", and in every other mode (none, or
    any other word) the request for a summary of the document's text, in
    which the question does not occur. With the session in the store but
    no such document, the answer is the 404 "Document not found"; with
    no session of that id (and the id not a property name of
    [Object.prototype]), the 404 "Session not found". The model is asked
    in the first case only. *)
Theorem query_prompt (sid : string) (b : QueryBody) (st : State) :
  (forall session doc,
      Dict.get sid (sessions st) = Some session ->
      find_document (q_docId b) (docs session) = Some doc ->
      exists p,
        query_prepare sid b st = inr (Ask p)
        /\ mentions p (Js.template (doc_text doc))
        /\ (strict_eq (q_mode b) "qa" = true ->
            p = "Document:" ++ nl ++ Js.template (doc_text doc) ++ nl ++ nl
                ++ "Question: " ++ q_query b ++ nl ++ "Answer:"
            /\ mentions p (q_query b))
        /\ (strict_eq (q_mode b) "qa" = false ->
            p = "Summarize the following document:" ++ nl ++ nl
                ++ Js.template (doc_text doc) ++ nl ++ nl ++ "Summary:"))
  /\ (forall session,
        Dict.get sid (sessions st) = Some session ->
        find_document (q_docId b) (docs session) = None ->
        query_prepare sid b st
        = inr (Refused {| status := 404;
                          reply_body := PlainText "Document not found" |}))
  /\ (Dict.get sid (sessions st) = None ->
      ~ In sid object_prototype_keys ->
      query_prepare sid b st
      = inr (Refused {| status := 404;
                        reply_body := PlainText "Session not found" |}))
  /\ (forall p,
        query_prepare sid b st = inr (Ask p) ->
        exists session doc,
          Dict.get sid (sessions st) = Some session
          /\ find_document (q_docId b) (docs session) = Some doc).
Proof.
  unfold query_prepare. split; [|split; [|split]].
  - intros session doc G F. rewrite (sessions_get_own _ _ _ G), F.
    eexists. split; [reflexivity|]. unfold prompt_of.
    split; [|split].
    + destruct (strict_eq (q_mode b) "qa").
      * apply (mentions_after "Document:"), (mentions_after nl).
        apply mentions_prefix.
      * apply (mentions_after "Summarize the following document:").
        apply (mentions_after nl), (mentions_after nl).
        apply mentions_prefix.
    + intros ->. split; [reflexivity|].
      apply (mentions_after "Document:"), (mentions_after nl).
      apply mentions_after, (mentions_after nl), (mentions_after nl).
      apply (mentions_after "Question: "). apply mentions_prefix.
    + now intros ->.
  - intros session G F. now rewrite (sessions_get_own _ _ _ G), F.
  - intros G P. rewrite (sessions_get_plain _ _ P), G. reflexivity.
  - intros p. unfold sessions_get.
    destruct (Dict.get sid (sessions st)) as [session|] eqn:G.
    + destruct (find_document (q_docId b) (docs session)) as [doc|] eqn:F;
        [|discriminate].
      intros _. now exists session, doc.
    + destruct (existsb _ _); discriminate.
Qed.

Lemma query_prompt_witness :
  exists p,
    query_prepare "s-1"
      {| q_docId := Some "d-1"; q_query := "why?"; q_mode := Some "qa" |}
      (set_sessions (Sample.one_document "greeting" "hello world") initial)
    = inr (Ask p)
    /\ p = "Document:" ++ nl ++ "hello world" ++ nl ++ nl
           ++ "Question: why?" ++ nl ++ "Answer:".
Proof.
  destruct (proj1
    (query_prompt "s-1"
       {| q_docId := Some "d-1"; q_query := "why?"; q_mode := Some "qa" |}
       (set_sessions (Sample.one_document "greeting" "hello world") initial))
    {| docs := [ {| doc_id := "d-1"; doc_title := Some "greeting";
                    doc_text := Some "hello world" |} ];
       history := [] |}
    {| doc_id := "d-1"; doc_title := Some "greeting";
       doc_text := Some "hello world" |}
    eq_refl eq_refl) as (p & E & _ & Q & _).
  exists p. split; [exact E | exact (proj1 (Q eq_refl))].
Defined.

(** ** After removal, and what a POST writes *)

(** X24. Removal followed by lookup finds nothing: once the close (or
    error) handler of a stream has run, the connection id that stream was
    registered under is unknown to the registry, and a POST carrying it
    is answered with the 404 "Connection not found" while the state stays
    as the handler left it. *)
Theorem closed_connection_not_found (tempServer : Throws unit)
  (h : nat) (id uuid : string)
  (req : Request) (st : State) :
  listener_of h st = Some id ->
  query_sessionId req = Some id ->
  registry_get (Some id) (on_close h st) = None
  /\ registry_get (Some id) (on_error h st) = None
  /\ fst (fst (post_mcp_message tempServer uuid req (on_close h st))) = on_close h st
  /\ status (snd (fst (post_mcp_message tempServer uuid req (on_close h st)))) = 404%Z.
Proof.
  intros L Q.
  assert (N : registry_get (Some id) (on_close h st) = None).
  { unfold on_close. rewrite L. cbn. apply get_delete_same. }
  repeat split; try exact N;
    unfold post_mcp_message; rewrite Q, N; reflexivity.
Qed.

Lemma closed_connection_not_found_witness :
  status
    (snd (fst (post_mcp_message (inr tt) "u"
                 (Sample.request (Some "c-1") Sample.json_client
                    (Some "initialize") None)
                 (on_close 0 Sample.connected))))
  = 404%Z.
Proof.
  exact (proj2 (proj2 (proj2
    (closed_connection_not_found (inr tt) 0 "c-1" "u"
       (Sample.request (Some "c-1") Sample.json_client (Some "initialize") None)
       Sample.connected eq_refl eq_refl)))).
Defined.

(** X25. A POST writes nothing but responses on SSE streams: every
    frame it hands to [res.write] is an [event: message] frame whose
    envelope echoes the request's id; it never writes an [endpoint] event
    or a keep-alive comment. *)
Theorem post_writes_responses (tempServer : Throws unit)
  (uuid : string) (req : Request) (st : State)
  (w : WriteCall) :
  In w (snd (post_mcp_message tempServer uuid req st)) ->
  exists response,
    frame w = MessageEvent response
    /\ resp_id response = msg_id (body req)
    /\ resp_jsonrpc response = "2.0".
Proof.
  intros H. by_paths;
    repeat match goal with
    | H : _ \/ _ |- _ => destruct H
    | H : False |- _ => contradiction
    end; subst; cbn; eexists; repeat split.
Qed.

Lemma post_writes_responses_witness :
  exists response,
    MessageEvent (success (OfToolsList tools) (Some (JNum 1)))
    = MessageEvent response
    /\ resp_id response = Some (JNum 1)
    /\ resp_jsonrpc response = "2.0".
Proof.
  exact (post_writes_responses (inr tt) "u"
           (Sample.request (Some "c-1") Sample.json_client
              (Some "tools/list") None)
           Sample.connected
           {| target := 0;
              frame := MessageEvent (success (OfToolsList tools) (Some (JNum 1)));
              threw := false |}
           (or_introl eq_refl)).
Defined.
